(** * Upstream device controller: twin merge, worker pipeline, dispatcher

    A shallow embedding of [cloud/pkg/devicecontroller/controller/upstream.go]
    and the properties of its merge-and-publish cycle.

    Go values are modelled as follows.
    - [string] is Rocq's [string]; [map[string]T] is stdpp's [gmap string T];
      a possibly-nil map or pointer is an [option].
    - a slice is a [list]; writes through a slice index land in the backing
      array, which the cached device shares, so they are writes to the heap
      cell of the cached device.
    - the device cache ([sync.Map]) maps a device identifier to an interface
      value; the values the controller cares about are [*v1alpha1.Device]
      pointers into a heap of devices.
    - [for k, v := range m] visits every key once in an unspecified order: the
      loop is a fold over a list of entries that is a permutation of the map's
      entries. *)

From stdpp Require Import gmap strings list fin_maps pretty.

Open Scope string_scope.
Open Scope list_scope.

(** ** Data model *)

(** Go's [error]: only its presence matters here; the text is kept for logs. *)
Definition error := string.

(** Go's [[]byte]. *)
Definition bytes := list Byte.byte.

(** Modelled from the spec: the API types of package [v1alpha1] (the cached
    device, its ordered twin list and the reported/desired twin properties);
    their declarations are not part of this file's source.  [Metadata] is a Go
    map and may be nil ([None]). *)
Module v1alpha1.

Record TwinProperty := {
  Value : string;
  Metadata : option (gmap string string)
}.

Record Twin := {
  PropertyName : string;
  Desired : TwinProperty;
  Reported : TwinProperty
}.

Record DeviceStatus := {
  Twins : list Twin
}.

Record Device := {
  Name : string;
  Namespace : string;
  Status : DeviceStatus
}.

End v1alpha1.

(** Modelled from the spec: the decoded payload of package [types].  The code
    tests [twin.Actual], [twin.Actual.Value], [twin.Actual.Metadata] and
    [twin.Metadata] against nil and dereferences [*twin.Actual.Value], so
    these four are pointers ([option]).  [Timestamp] is an [int64]. *)
Module types.

Record ValueMetadata := {
  Timestamp : Z
}.

Record TypeMetadata := {
  Type_ : string
}.

Record TwinValue := {
  Value : option string;
  Metadata : option ValueMetadata
}.

Record MsgTwin := {
  Actual : option TwinValue;
  TwinMetadata : option TypeMetadata
}.

Record DeviceTwinUpdate := {
  Twin : gmap string MsgTwin
}.

End types.

(** [DeviceStatus] of upstream.go: the structure marshalled into the patch
    body. *)
Record DeviceStatus := {
  Status : v1alpha1.DeviceStatus
}.

Definition MergePatchType : string := "application/merge-patch+json".
Definition ResourceTypeDevices : string := "devices".

(** [strconv.FormatInt(i, 10)]: the decimal digits of [i], with a leading
    minus sign when [i] is negative. *)
Definition FormatInt10 (i : Z) : string := pretty i.

(** ** The merge loop of [updateDeviceStatus] (lines 135-151) *)

(** Lines 138-146: the fresh [TwinProperty] built for a matched entry. *)
Definition newReported (twin : types.MsgTwin) (actual : types.TwinValue)
    (value : string) : v1alpha1.TwinProperty :=
  let m0 : gmap string string := ∅ in
  let m1 :=
    match types.Metadata actual with
    | Some md => <["timestamp" := FormatInt10 (types.Timestamp md)]> m0
    | None => m0
    end in
  let m2 :=
    match types.TwinMetadata twin with
    | Some md => <["type" := types.Type_ md]> m1
    | None => m1
    end in
  {| v1alpha1.Value := value; v1alpha1.Metadata := Some m2 |}.

(** Line 147: [deviceStatus.Status.Twins[i].Reported = reported]. *)
Definition setReported (reported : v1alpha1.TwinProperty)
    (cacheTwin : v1alpha1.Twin) : v1alpha1.Twin :=
  {| v1alpha1.PropertyName := v1alpha1.PropertyName cacheTwin;
     v1alpha1.Desired := v1alpha1.Desired cacheTwin;
     v1alpha1.Reported := reported |}.

(** Lines 136-150: the inner loop for one update entry.  The first cached
    twin that passes the test of line 137 is overwritten and the loop breaks;
    the remaining twins are not visited. *)
Fixpoint scanTwins (twinName : string) (twin : types.MsgTwin)
    (twins : list v1alpha1.Twin) : list v1alpha1.Twin :=
  match twins with
  | [] => []
  | cacheTwin :: rest =>
      match bool_decide (twinName = v1alpha1.PropertyName cacheTwin),
            types.Actual twin with
      | true, Some actual =>
          match types.Value actual with
          | Some value =>
              setReported (newReported twin actual value) cacheTwin :: rest
          | None => cacheTwin :: scanTwins twinName twin rest
          end
      | _, _ => cacheTwin :: scanTwins twinName twin rest
      end
  end.

(** Lines 135-151: the outer loop, over the update's entries in the order
    [entries] in which the [range] statement happens to visit them. *)
Definition mergeTwins (entries : list (string * types.MsgTwin))
    (twins : list v1alpha1.Twin) : list v1alpha1.Twin :=
  foldl (λ acc e, scanTwins e.1 e.2 acc) twins entries.

(** An order in which [range msgTwin.Twin] may visit the map: every entry
    once. *)
Definition rangeOrder (U : gmap string types.MsgTwin)
    (entries : list (string * types.MsgTwin)) : Prop :=
  entries ≡ₚ map_to_list U.


(** ** Messages and collaborators *)

(** A Go call returning [(T, error)]: both components, [None] for a nil
    error. *)
Definition result (T : Type) : Type := T * option error.

(** [model.Message] of beehive, as far as the controller reads it.  The
    content is an [interface{}]: either a [[]byte] or some other Go value, of
    a type [V] the controller never inspects. *)
Inductive Content (V : Type) :=
  | ContentBytes (b : bytes)
  | ContentOther (v : V).
Arguments ContentBytes {V} b.
Arguments ContentOther {V} v.

Record Message (V : Type) := {
  GetID : string;
  GetOperation : string;
  GetResource : string;
  GetContent : Content V
}.
Arguments GetID {V} _.
Arguments GetOperation {V} _.
Arguments GetResource {V} _.
Arguments GetContent {V} _.

(** The request built on line 162. *)
Record PatchRequest := {
  patchType : string;
  patchNamespace : string;
  patchResource : string;
  patchName : string;
  patchBody : bytes
}.

(** What the controller consumes from outside this file: [encoding/json],
    the message layer's resource parsers, the REST client, the constant
    naming the twin-update resource type, and the order in which the runtime
    visits a map in a [range] statement. *)
Record Collaborators (V : Type) := {
  (** [json.Marshal(content)] *)
  json_Marshal : V → result bytes;
  (** [json.Unmarshal(data, twinUpdate)]: the target as the call leaves it,
      and the error. *)
  json_Unmarshal : bytes → types.DeviceTwinUpdate → result types.DeviceTwinUpdate;
  (** [json.Marshal(deviceStatus)] *)
  json_MarshalStatus : DeviceStatus → result bytes;
  (** [messagelayer.GetDeviceID] *)
  GetDeviceID : string → result string;
  (** [messagelayer.GetResourceType] *)
  GetResourceType : string → result string;
  (** [constants.ResourceTypeTwinEdgeUpdated] *)
  ResourceTypeTwinEdgeUpdated : string;
  (** [uc.crdClient.Patch(...)...Do().Error()] *)
  Do : PatchRequest → option error;
  (** the visiting order of [range msgTwin.Twin] *)
  visit : gmap string types.MsgTwin → list (string * types.MsgTwin)
}.
Arguments json_Marshal {V} _.
Arguments json_Unmarshal {V} _.
Arguments json_MarshalStatus {V} _.
Arguments GetDeviceID {V} _.
Arguments GetResourceType {V} _.
Arguments ResourceTypeTwinEdgeUpdated {V} _.
Arguments Do {V} _.
Arguments visit {V} _.

(** The same collaborators with another serializer and another store. *)
Definition withStore {V} (marshal : DeviceStatus → result bytes)
    (do : PatchRequest → option error) (c : Collaborators V) : Collaborators V :=
  {| json_Marshal := json_Marshal c;
     json_Unmarshal := json_Unmarshal c;
     json_MarshalStatus := marshal;
     GetDeviceID := GetDeviceID c;
     GetResourceType := GetResourceType c;
     ResourceTypeTwinEdgeUpdated := ResourceTypeTwinEdgeUpdated c;
     Do := do;
     visit := visit c |}.

(** ** The world the worker acts on *)

Definition loc := positive.

(** A value held by the device cache ([sync.Map] holds [interface{}]). *)
Inductive CacheValue :=
  | DevicePtr (p : loc)
  | OtherValue.

Inductive Severity := Info | Warning | Error.

(** What a run leaves behind, in order: log lines, stores into the device
    cache and patch requests sent to the resource store. *)
Inductive Event :=
  | EvLog (s : Severity) (text : string)
  | EvStore (deviceID : string) (p : loc)
  | EvPatch (r : PatchRequest).

Record World := {
  (** [uc.dc.deviceManager.Device] *)
  deviceCache : gmap string CacheValue;
  (** the devices the cached pointers point to *)
  heap : gmap loc v1alpha1.Device;
  trace : list Event
}.

Definition emit (e : Event) (w : World) : World :=
  {| deviceCache := deviceCache w; heap := heap w; trace := trace w ++ [e] |}.

Definition klog (s : Severity) (text : string) (w : World) : World :=
  emit (EvLog s text) w.

(** [Device.Store(deviceID, cacheDevice)] *)
Definition Store (deviceID : string) (p : loc) (w : World) : World :=
  emit (EvStore deviceID p)
    {| deviceCache := <[deviceID := DevicePtr p]> (deviceCache w);
       heap := heap w; trace := trace w |}.

(** A write to the [Status] field of the device at [p]. *)
Definition writeStatus (p : loc) (status : v1alpha1.DeviceStatus) (w : World) : World :=
  {| deviceCache := deviceCache w;
     heap := alter (λ d, {| v1alpha1.Name := v1alpha1.Name d;
                            v1alpha1.Namespace := v1alpha1.Namespace d;
                            v1alpha1.Status := status |}) p (heap w);
     trace := trace w |}.

(** The cache as a reader sees it: identifiers to devices, through the
    pointers. *)
Definition cachedDevice (w : World) (deviceID : string) : option v1alpha1.Device :=
  match deviceCache w !! deviceID with
  | Some (DevicePtr p) => heap w !! p
  | _ => None
  end.

(** ** The controller *)

(** The target [&types.DeviceTwinUpdate{}] that [json.Unmarshal] is handed:
    a zero value, its twin map nil. *)
Definition zeroUpdate : types.DeviceTwinUpdate := {| types.Twin := ∅ |}.

Section Controller.
Context {V : Type}.
Variable uc : Collaborators V.

(** [unmarshalDeviceStatusMessage] (lines 172-189).  The result is Go's pair
    of a pointer to the decoded update and an error. *)
Definition unmarshalDeviceStatusMessage (msg : Message V)
    : option types.DeviceTwinUpdate * option error :=
  let content := GetContent msg in
  let twinUpdate := zeroUpdate in
  match content with
  | ContentBytes contentData =>
      let '(twinUpdate, err) := json_Unmarshal uc contentData twinUpdate in
      match err with
      | Some e => (None, Some e)
      | None => (Some twinUpdate, None)
      end
  | ContentOther v =>
      let '(contentData, err) := json_Marshal uc v in
      match err with
      | Some e => (None, Some e)
      | None =>
          let '(twinUpdate, err) := json_Unmarshal uc contentData twinUpdate in
          match err with
          | Some e => (None, Some e)
          | None => (Some twinUpdate, None)
          end
      end
  end.

(** The body of the [case msg := <-uc.deviceStatusChan] branch (lines
    113-167) for one message.  [None] is a run-time panic, a nil pointer
    dereferenced: the cached device by [cacheDevice.Status] on line 134, or
    a nil update returned without an error by [msgTwin.Twin] on line 135. *)
Definition processMessage (msg : Message V) (w : World) : option World :=
  let w := klog Info "Message, operation and resource" w in
  match unmarshalDeviceStatusMessage msg with
  | (_, Some err) => Some (klog Warning "Unmarshall failed" w)
  | (None, None) => None
  | (Some msgTwin, None) =>
  match GetDeviceID uc (GetResource msg) with
  | (_, Some err) => Some (klog Warning "Failed to get device id" w)
  | (deviceID, None) =>
  match deviceCache w !! deviceID with
  | None => Some (klog Warning "Device does not exist in downstream controller" w)
  | Some OtherValue => Some (klog Warning "Failed to assert to CacheDevice type" w)
  | Some (DevicePtr p) =>
  match heap w !! p with
  | None => None
  | Some cacheDevice =>
      (* deviceStatus.Status.Twins shares its backing array with
         cacheDevice.Status.Twins: line 147 writes into the cached device *)
      let twins := mergeTwins (visit uc (types.Twin msgTwin))
                     (v1alpha1.Twins (v1alpha1.Status cacheDevice)) in
      let deviceStatus := {| Status := {| v1alpha1.Twins := twins |} |} in
      let w := writeStatus p {| v1alpha1.Twins := twins |} w in
      (* line 154 *)
      let w := writeStatus p (Status deviceStatus) w in
      (* line 155 *)
      let w := Store deviceID p w in
      match json_MarshalStatus uc deviceStatus with
      | (_, Some err) => Some (klog Error "Failed to marshal device status" w)
      | (body, None) =>
          let request :=
            {| patchType := MergePatchType;
               patchNamespace := v1alpha1.Namespace cacheDevice;
               patchResource := ResourceTypeDevices;
               patchName := deviceID;
               patchBody := body |} in
          let w := emit (EvPatch request) w in
          match Do uc request with
          | Some err => Some (klog Error "Failed to patch device status" w)
          | None => Some (klog Info "Message process successfully" w)
          end
      end
  end end end end.

(** What a [select] of the worker loop yields. *)
Inductive Selected :=
  | CtxDone
  | Dequeued (msg : Message V).

(** [updateDeviceStatus] (lines 106-170) over the sequence of outcomes of
    its [select] statements; the loop ends at cancellation. *)
Fixpoint updateDeviceStatus (selects : list Selected) (w : World) : option World :=
  match selects with
  | [] => Some w
  | CtxDone :: _ => Some (klog Info "Stop updateDeviceStatus" w)
  | Dequeued msg :: rest =>
      match processMessage msg w with
      | Some w' => updateDeviceStatus rest w'
      | None => None
      end
  end.

(** The dispatcher's state: the worker queue [uc.deviceStatusChan], oldest
    message first, and the log. *)
Record Dispatcher := {
  deviceStatusChan : list (Message V);
  dlog : list Event
}.

Definition dklog (s : Severity) (text : string) (d : Dispatcher) : Dispatcher :=
  {| deviceStatusChan := deviceStatusChan d; dlog := dlog d ++ [EvLog s text] |}.

(** Line 99, [uc.deviceStatusChan <- msg], once the send has gone through. *)
Definition send (msg : Message V) (d : Dispatcher) : Dispatcher :=
  {| deviceStatusChan := deviceStatusChan d ++ [msg]; dlog := dlog d |}.

(** Lines 82-102: one iteration past the cancellation check, given what
    [uc.messageLayer.Receive()] returned. *)
Definition dispatchOne (received : result (Message V)) (d : Dispatcher) : Dispatcher :=
  let '(msg, err) := received in
  match err with
  | Some e => dklog Warning "Receive message failed" d
  | None =>
      let d := dklog Info "Dispatch message" d in
      match GetResourceType uc (GetResource msg) with
      | (_, Some e) => dklog Warning "Parse message resource type with error" d
      | (resourceType, None) =>
          let d := dklog Info "Message resource type" d in
          if bool_decide (resourceType = ResourceTypeTwinEdgeUpdated uc)
          then send msg d
          else dklog Warning "Message not intended for device controller" d
      end
  end.

(** What an iteration of the dispatch loop meets: cancellation, or the
    result of a receive. *)
Inductive Polled :=
  | Cancelled
  | Received (r : result (Message V)).

(** [dispatchMessage] (lines 74-104). *)
Fixpoint dispatchMessage (polls : list Polled) (d : Dispatcher) : Dispatcher :=
  match polls with
  | [] => d
  | Cancelled :: _ => dklog Info "Stop dispatchMessage" d
  | Received r :: rest => dispatchMessage rest (dispatchOne r d)
  end.

End Controller.

(** ** Vocabulary for the properties *)

Definition names (twins : list v1alpha1.Twin) : list string :=
  v1alpha1.PropertyName <$> twins.

(** The update entry carries a non-null actual value: the second and third
    conjunct of line 137. *)
Definition hasActualValue (twin : types.MsgTwin) : Prop :=
  ∃ actual value,
    types.Actual twin = Some actual ∧ types.Value actual = Some value.

(** The property an update entry reports, when it carries a value. *)
Definition reportedOf (twin : types.MsgTwin) : option v1alpha1.TwinProperty :=
  match types.Actual twin with
  | Some actual =>
      match types.Value actual with
      | Some value => Some (newReported twin actual value)
      | None => None
      end
  | None => None
  end.

(** What the merge of [U] makes of the cached twin [t], given the names of
    the twins that precede it in the list: a twin whose name occurred before
    is kept; otherwise the entry of [U] for its name, if it has one with a
    value, replaces its [Reported] field. *)
Definition mergedTwin (U : gmap string types.MsgTwin) (seen : list string)
    (t : v1alpha1.Twin) : v1alpha1.Twin :=
  if decide (v1alpha1.PropertyName t ∈ seen) then t
  else match U !! v1alpha1.PropertyName t ≫= reportedOf with
       | Some r => setReported r t
       | None => t
       end.

(** The merge described entry by entry, first match wins: the reference the
    loops are compared with. *)
Fixpoint firstMatchMerge (U : gmap string types.MsgTwin) (seen : list string)
    (twins : list v1alpha1.Twin) : list v1alpha1.Twin :=
  match twins with
  | [] => []
  | t :: rest =>
      mergedTwin U seen t
        :: firstMatchMerge U (seen ++ [v1alpha1.PropertyName t]) rest
  end.

(** Position [i] holds the first twin of its name in [twins]. *)
Definition firstOfName (twins : list v1alpha1.Twin) (i : nat) : Prop :=
  ∃ t, twins !! i = Some t ∧ v1alpha1.PropertyName t ∉ names (take i twins).

(** The update names a cached twin when the twin's [propertyName] is one of
    its keys. *)
Definition namedBy (U : gmap string types.MsgTwin) (t : v1alpha1.Twin) : Prop :=
  v1alpha1.PropertyName t ∈ dom U.

(** Two twins agree on everything but their [Reported] field. *)
Definition sameButReported (t t' : v1alpha1.Twin) : Prop :=
  v1alpha1.PropertyName t' = v1alpha1.PropertyName t
  ∧ v1alpha1.Desired t' = v1alpha1.Desired t.

(** Two devices agree on their name, their namespace and, twin by twin, on
    everything but the [Reported] fields. *)
Definition sameStructure (d d' : v1alpha1.Device) : Prop :=
  v1alpha1.Name d' = v1alpha1.Name d
  ∧ v1alpha1.Namespace d' = v1alpha1.Namespace d
  ∧ Forall2 sameButReported
      (v1alpha1.Twins (v1alpha1.Status d)) (v1alpha1.Twins (v1alpha1.Status d')).

(** The cached device with the update merged into its twin list. *)
Definition mergedDevice (entries : list (string * types.MsgTwin))
    (d : v1alpha1.Device) : v1alpha1.Device :=
  {| v1alpha1.Name := v1alpha1.Name d;
     v1alpha1.Namespace := v1alpha1.Namespace d;
     v1alpha1.Status :=
       {| v1alpha1.Twins :=
            mergeTwins entries (v1alpha1.Twins (v1alpha1.Status d)) |} |}.

Definition isLog (e : Event) : Prop := ∃ s text, e = EvLog s text.

Definition isPatch (e : Event) : Prop := ∃ r, e = EvPatch r.

(** The patch requests of a trace, in order. *)
Definition patchRequests (events : list Event) : list PatchRequest :=
  omap (λ e, match e with EvPatch r => Some r | _ => None end) events.

(** The world after the write-back of lines 147-155. *)
Definition storedWorld (deviceID : string) (p : loc) (d : v1alpha1.Device)
    (w : World) : World :=
  {| deviceCache := <[deviceID := DevicePtr p]> (deviceCache w);
     heap := <[p := d]> (heap w);
     trace := trace w
              ++ [EvLog Info "Message, operation and resource";
                  EvStore deviceID p] |}.

(** A message that is not merged leaves the cache and the heap alone and
    adds log lines only. *)
Definition abandoned (w w' : World) : Prop :=
  deviceCache w' = deviceCache w ∧ heap w' = heap w
  ∧ ∃ logs, trace w' = trace w ++ logs ∧ Forall isLog logs.

(** C1 read to the letter: every cached twin the update names has its
    [Reported] field replaced by the property built from the update entry. *)
Definition replacesEveryNamed (U : gmap string types.MsgTwin)
    (entries : list (string * types.MsgTwin))
    (twins : list v1alpha1.Twin) : Prop :=
  ∀ i t, twins !! i = Some t → namedBy U t →
    ∃ t' twin actual value,
      mergeTwins entries twins !! i = Some t'
      ∧ U !! v1alpha1.PropertyName t = Some twin
      ∧ types.Actual twin = Some actual
      ∧ types.Value actual = Some value
      ∧ v1alpha1.Reported t' = newReported twin actual value.

(** The receive went through and the resource locator parses to the
    twin-update resource type. *)
Definition twinUpdateReceived {V} (uc : Collaborators V)
    (received : result (Message V)) : Prop :=
  received.2 = None
  ∧ GetResourceType uc (GetResource received.1)
    = (ResourceTypeTwinEdgeUpdated uc, None).

(** The marshal step of the decoder (line 179) runs and fails. *)
Definition marshalStepFails {V} (uc : Collaborators V) (msg : Message V) : Prop :=
  ∃ v, GetContent msg = ContentOther v ∧ is_Some (json_Marshal uc v).2.

(** The bytes that reach the final unmarshal step (line 184), if any do. *)
Definition contentData {V} (uc : Collaborators V) (msg : Message V) : option bytes :=
  match GetContent msg with
  | ContentBytes b => Some b
  | ContentOther v =>
      match json_Marshal uc v with
      | (data, None) => Some data
      | (_, Some _) => None
      end
  end.

(** The final unmarshal step runs and fails. *)
Definition unmarshalStepFails {V} (uc : Collaborators V) (msg : Message V) : Prop :=
  ∃ data, contentData uc msg = Some data
    ∧ is_Some (json_Unmarshal uc data zeroUpdate).2.

(** What the decoder makes of the outcome of [json.Unmarshal]. *)
Definition decoded (r : result types.DeviceTwinUpdate)
    : option types.DeviceTwinUpdate * option error :=
  match r with
  | (_, Some e) => (None, Some e)
  | (twinUpdate, None) => (Some twinUpdate, None)
  end.

(** ** Sample data: the device [dev-1] of the spec's scenarios *)

Definition staleReported : v1alpha1.TwinProperty :=
  {| v1alpha1.Value := "17";
     v1alpha1.Metadata := Some {[ "timestamp" := "900"; "unit" := "C" ]} |}.

Definition unsetProperty : v1alpha1.TwinProperty :=
  {| v1alpha1.Value := ""; v1alpha1.Metadata := None |}.

Definition sampleTwin (name : string) : v1alpha1.Twin :=
  {| v1alpha1.PropertyName := name;
     v1alpha1.Desired := unsetProperty;
     v1alpha1.Reported := staleReported |}.

Definition report (value : string) (timestamp : Z) (type : string) : types.MsgTwin :=
  {| types.Actual :=
       Some {| types.Value := Some value;
               types.Metadata := Some {| types.Timestamp := timestamp |} |};
     types.TwinMetadata := Some {| types.Type_ := type |} |}.

Definition nullReport : types.MsgTwin :=
  {| types.Actual := Some {| types.Value := None; types.Metadata := None |};
     types.TwinMetadata := None |}.

(** A twin list in which [temperature] occurs twice. *)
Definition sampleTwins : list v1alpha1.Twin :=
  [sampleTwin "temperature"; sampleTwin "humidity"; sampleTwin "temperature"].

Definition sampleUpdate : gmap string types.MsgTwin :=
  {[ "temperature" := report "42" 1000 "int" ]}.

Definition twoReports : gmap string types.MsgTwin :=
  {[ "temperature" := report "42" 1000 "int";
     "humidity" := report "61" 1001 "int" ]}.

Definition inertUpdate : gmap string types.MsgTwin :=
  {[ "pressure" := report "3" 1000 "int"; "humidity" := nullReport ]}.

Definition dev1 : v1alpha1.Device :=
  {| v1alpha1.Name := "dev-1"; v1alpha1.Namespace := "default";
     v1alpha1.Status := {| v1alpha1.Twins := sampleTwins |} |}.

Definition sampleWorld : World :=
  {| deviceCache := {[ "dev-1" := DevicePtr 1%positive ]};
     heap := {[ 1%positive := dev1 ]};
     trace := [] |}.

(** Collaborators for the samples: every payload decodes to [sampleUpdate],
    the resource locator is the device identifier, and the store accepts
    every patch. *)
Definition sampleCollaborators : Collaborators unit :=
  {| json_Marshal := λ _, ([], None);
     json_Unmarshal := λ _ _, ({| types.Twin := sampleUpdate |}, None);
     json_MarshalStatus := λ _, ([], None);
     GetDeviceID := λ resource, (resource, None);
     GetResourceType := λ _, ("twin/edge_updated", None);
     ResourceTypeTwinEdgeUpdated := "twin/edge_updated";
     Do := λ _, None;
     visit := map_to_list |}.

Definition sampleMessage (deviceID : string) : Message unit :=
  {| GetID := "m-1"; GetOperation := "update"; GetResource := deviceID;
     GetContent := ContentOther () |}.

(** ** Construction of the controller *)

Section Construction.
Context {Config Client Layer Downstream : Type}.

(** The fields of [UpstreamController] that [NewUpstreamController] sets;
    [deviceStatusChan] stays nil until [Start]. *)
Record UpstreamController := {
  crdClient : Client;
  messageLayer : Layer;
  dc : Downstream
}.

(** [NewUpstreamController] (lines 192-205), given what [utils.KubeConfig],
    [utils.NewCRDClient] and [messagelayer.NewMessageLayer] return.  Each
    [:=] of lines 193-195 assigns the one variable [err] anew; the result is
    the returned pair and the lines logged. *)
Definition NewUpstreamController (KubeConfig : result Config)
    (NewCRDClient : Config → result Client) (NewMessageLayer : result Layer)
    (downstream : Downstream) : result UpstreamController * list Event :=
  let '(config, err) := KubeConfig in
  let '(crdcli, err) := NewCRDClient config in
  let '(ml, err) := NewMessageLayer in
  let logs :=
    match err with
    | Some e => [EvLog Warning "Create message layer failed with error"]
    | None => []
    end in
  let uc := {| crdClient := crdcli; messageLayer := ml; dc := downstream |} in
  ((uc, None), logs).

End Construction.

(** ** Vocabulary for runs of the loops and sequences of updates *)

(** The messages a run of the worker loop takes off the queue: those its
    [select] statements yield before the first cancellation. *)
Fixpoint dequeuedMessages {V} (selects : list (@Selected V)) : list (Message V) :=
  match selects with
  | [] => []
  | CtxDone :: _ => []
  | Dequeued msg :: rest => msg :: dequeuedMessages rest
  end.

(** What the dispatcher receives before it is cancelled. *)
Fixpoint receivedBeforeCancel {V} (polls : list (@Polled V))
    : list (result (Message V)) :=
  match polls with
  | [] => []
  | Cancelled :: _ => []
  | Received r :: rest => r :: receivedBeforeCancel rest
  end.

Definition isWarning (e : Event) : bool :=
  match e with
  | EvLog Warning _ => true
  | _ => false
  end.

Definition warningCount (events : list Event) : nat :=
  length (List.filter isWarning events).

(** Every patch request of a trace comes directly after a store into the
    cache under the identifier the request names. *)
Definition publishDiscipline (events : list Event) : Prop :=
  ∀ i r, events !! i = Some (EvPatch r) →
    ∃ j p, i = S j ∧ events !! j = Some (EvStore (patchName r) p).

(** Every device pointer in the cache points to a device. *)
Definition wellFormed (w : World) : Prop :=
  ∀ deviceID p, deviceCache w !! deviceID = Some (DevicePtr p) →
    is_Some (heap w !! p).

(** Two updates in a row as one: an entry of the later update that carries a
    value takes the place of the earlier update's entry for its name. *)
Definition laterWins (U1 U2 : gmap string types.MsgTwin)
    : gmap string types.MsgTwin :=
  filter (λ e, is_Some (reportedOf e.2)) U2 ∪ U1.

(** Collaborators for the samples of failures: the sample ones, except that
    decoding fails, the locator does not resolve, serialization fails. *)
Definition undecodable : Collaborators unit :=
  {| json_Marshal := json_Marshal sampleCollaborators;
     json_Unmarshal := λ _ u, (u, Some "unexpected end of JSON input");
     json_MarshalStatus := json_MarshalStatus sampleCollaborators;
     GetDeviceID := GetDeviceID sampleCollaborators;
     GetResourceType := GetResourceType sampleCollaborators;
     ResourceTypeTwinEdgeUpdated := ResourceTypeTwinEdgeUpdated sampleCollaborators;
     Do := Do sampleCollaborators;
     visit := visit sampleCollaborators |}.

Definition unresolvable : Collaborators unit :=
  {| json_Marshal := json_Marshal sampleCollaborators;
     json_Unmarshal := json_Unmarshal sampleCollaborators;
     json_MarshalStatus := json_MarshalStatus sampleCollaborators;
     GetDeviceID := λ _, ("", Some "failed to get device id");
     GetResourceType := λ _, ("", Some "unknown resource");
     ResourceTypeTwinEdgeUpdated := ResourceTypeTwinEdgeUpdated sampleCollaborators;
     Do := Do sampleCollaborators;
     visit := visit sampleCollaborators |}.

(** A world whose cache holds something that is not a device under
    [dev-3]. *)
Definition mixedWorld : World :=
  {| deviceCache := <["dev-3" := OtherValue]> (deviceCache sampleWorld);
     heap := heap sampleWorld;
     trace := [] |}.

(** A device that has no [temperature] twin, cached under [dev-4]. *)
Definition dev4 : v1alpha1.Device :=
  {| v1alpha1.Name := "dev-4"; v1alpha1.Namespace := "plant";
     v1alpha1.Status := {| v1alpha1.Twins := [sampleTwin "humidity"] |} |}.

Definition plantWorld : World :=
  {| deviceCache := {[ "dev-4" := DevicePtr 4%positive ]};
     heap := {[ 4%positive := dev4 ]};
     trace := [] |}.

(** The sample collaborators with a serializer that fails. *)
Definition unserializable : Collaborators unit :=
  withStore (λ _, ([], Some "json: unsupported value")) (λ _, None)
    sampleCollaborators.

(** The sample collaborators with a store that rejects every patch. *)
Definition rejecting : Collaborators unit :=
  withStore (λ _, ([], None)) (λ _, Some "the server rejected our request")
    sampleCollaborators.

(** A later report: a new temperature, and a humidity without a value. *)
Definition laterUpdate : gmap string types.MsgTwin :=
  {[ "temperature" := report "43" 2000 "int"; "humidity" := nullReport ]}.

Definition humidityUpdate : gmap string types.MsgTwin :=
  {[ "humidity" := report "61" 1001 "int" ]}.

(** Whether a received message is a twin update is decidable: it is the
    test the dispatcher makes. *)
#[global] Instance twinUpdateReceived_dec {V} (uc : Collaborators V)
    (received : result (Message V)) : Decision (twinUpdateReceived uc received).
Proof. unfold twinUpdateReceived. apply _. Defined.

(** A world whose cache holds a nil device pointer under [dev-1]: the
    pointer points to no device. *)
Definition danglingWorld : World :=
  {| deviceCache := {[ "dev-1" := DevicePtr 7%positive ]};
     heap := ∅;
     trace := [] |}.

(** ** The merge loops against the entry-by-entry description *)

Lemma reportedOf_Some twin r :
  reportedOf twin = Some r ↔
  ∃ actual value, types.Actual twin = Some actual ∧
    types.Value actual = Some value ∧ r = newReported twin actual value.
Proof.
  unfold reportedOf. split.
  - destruct (types.Actual twin) as [a|]; [|done].
    destruct (types.Value a) as [v|] eqn:Hv; [|done].
    intros [= <-]. by exists a, v.
  - intros (a & v & -> & -> & ->). done.
Qed.

Lemma reportedOf_hasActualValue twin :
  hasActualValue twin ↔ is_Some (reportedOf twin).
Proof.
  unfold hasActualValue, is_Some. split.
  - intros (a & v & Ha & Hv). eexists. apply reportedOf_Some. eauto.
  - intros [r (a & v & Ha & Hv & _)%reportedOf_Some]. eauto.
Qed.

Lemma scanTwins_cons twinName twin t rest :
  scanTwins twinName twin (t :: rest) =
  match reportedOf twin with
  | Some r =>
      if decide (twinName = v1alpha1.PropertyName t)
      then setReported r t :: rest
      else t :: scanTwins twinName twin rest
  | None => t :: scanTwins twinName twin rest
  end.
Proof.
  unfold reportedOf. simpl.
  destruct (types.Actual twin) as [a|]; [|by case_bool_decide].
  destruct (types.Value a) as [v|]; case_bool_decide; try done.
  - by rewrite decide_True.
  - by rewrite decide_False.
Qed.

Lemma scanTwins_no_value twinName twin twins :
  reportedOf twin = None → scanTwins twinName twin twins = twins.
Proof.
  intros Hnone. induction twins as [|t rest IH]; [done|].
  rewrite scanTwins_cons, Hnone. by rewrite IH.
Qed.

Lemma scanTwins_unknown twinName twin twins :
  twinName ∉ names twins → scanTwins twinName twin twins = twins.
Proof.
  induction twins as [|t rest IH]; [done|].
  unfold names. rewrite fmap_cons, not_elem_of_cons. intros [Hne Hrest].
  rewrite scanTwins_cons.
  destruct (reportedOf twin); [rewrite decide_False by done|]; by rewrite IH.
Qed.

Lemma mergedTwin_name U seen t :
  v1alpha1.PropertyName (mergedTwin U seen t) = v1alpha1.PropertyName t.
Proof.
  unfold mergedTwin. case_decide; [done|].
  by destruct (U !! v1alpha1.PropertyName t ≫= reportedOf).
Qed.

Lemma mergedTwin_desired U seen t :
  v1alpha1.Desired (mergedTwin U seen t) = v1alpha1.Desired t.
Proof.
  unfold mergedTwin. case_decide; [done|].
  by destruct (U !! v1alpha1.PropertyName t ≫= reportedOf).
Qed.

(** An entry of the update whose name was seen before, or that carries no
    value, makes no difference. *)
Lemma firstMatchMerge_insert_inert U seen k twin twins :
  U !! k = None →
  k ∈ seen ∨ reportedOf twin = None →
  firstMatchMerge (<[k := twin]> U) seen twins = firstMatchMerge U seen twins.
Proof.
  intros Hk. revert seen. induction twins as [|t rest IH]; intros seen Hin; [done|].
  simpl. f_equal.
  - unfold mergedTwin. case_decide; [done|].
    destruct (decide (k = v1alpha1.PropertyName t)) as [->|Hne].
    + rewrite lookup_insert_eq, Hk. simpl.
      destruct Hin as [?| ->]; done.
    + by rewrite lookup_insert_ne.
  - apply IH. destruct Hin as [?|?]; [left|by right].
    apply elem_of_app. by left.
Qed.

(** One pass of the inner loop is the insertion of its entry into the
    update described entry by entry. *)
Lemma firstMatchMerge_scanTwins U seen k twin twins :
  U !! k = None → k ∉ seen →
  firstMatchMerge U seen (scanTwins k twin twins)
  = firstMatchMerge (<[k := twin]> U) seen twins.
Proof.
  intros Hk. destruct (reportedOf twin) as [r|] eqn:Hr.
  2:{ intros _. rewrite scanTwins_no_value by done.
      symmetry. apply firstMatchMerge_insert_inert; auto. }
  revert seen. induction twins as [|t rest IH]; intros seen Hseen; [done|].
  rewrite scanTwins_cons, Hr. case_decide as Hname.
  - subst k. simpl. f_equal.
    + unfold mergedTwin. simpl. rewrite !decide_False by done.
      rewrite Hk, lookup_insert_eq. simpl. by rewrite Hr.
    + symmetry. apply firstMatchMerge_insert_inert; [done|].
      left. apply elem_of_app. right. by apply list_elem_of_singleton.
  - simpl. f_equal.
    + unfold mergedTwin. by rewrite lookup_insert_ne.
    + apply IH. rewrite elem_of_app, list_elem_of_singleton.
      intros [?|?]; [done|]. by apply Hname.
Qed.

Lemma firstMatchMerge_empty seen twins :
  firstMatchMerge ∅ seen twins = twins.
Proof.
  revert seen. induction twins as [|t rest IH]; intros seen; [done|].
  simpl. rewrite IH. f_equal.
  unfold mergedTwin. case_decide; [done|]. by rewrite lookup_empty.
Qed.

Lemma mergeTwins_cons k twin entries twins :
  mergeTwins ((k, twin) :: entries) twins
  = mergeTwins entries (scanTwins k twin twins).
Proof. done. Qed.

(** The two loops compute the entry-by-entry description of the map their
    entries make up, as long as no key is visited twice. *)
Lemma mergeTwins_firstMatchMerge entries twins :
  NoDup entries.*1 →
  mergeTwins entries twins = firstMatchMerge (list_to_map entries) [] twins.
Proof.
  revert twins. induction entries as [|[k twin] entries IH]; intros twins Hnd.
  - simpl. by rewrite firstMatchMerge_empty.
  - rewrite fmap_cons in Hnd. apply NoDup_cons in Hnd as [Hk Hnd].
    rewrite mergeTwins_cons, IH by done. simpl.
    apply firstMatchMerge_scanTwins.
    + by apply not_elem_of_list_to_map_1.
    + apply not_elem_of_nil.
Qed.

(** Whatever order [range] picks, the loops compute the merge described
    entry by entry. *)
Lemma mergeTwins_rangeOrder U entries twins :
  rangeOrder U entries →
  mergeTwins entries twins = firstMatchMerge U [] twins.
Proof.
  unfold rangeOrder. intros Hperm.
  assert (NoDup entries.*1) as Hnd.
  { rewrite Hperm. apply NoDup_fst_map_to_list. }
  rewrite mergeTwins_firstMatchMerge by done.
  f_equal. rewrite <- (list_to_map_to_list U).
  by apply list_to_map_proper.
Qed.

Lemma firstMatchMerge_length U seen twins :
  length (firstMatchMerge U seen twins) = length twins.
Proof.
  revert seen. induction twins as [|t rest IH]; intros seen; [done|].
  simpl. by rewrite IH.
Qed.

Lemma firstMatchMerge_lookup U seen twins i :
  firstMatchMerge U seen twins !! i
  = mergedTwin U (seen ++ names (take i twins)) <$> twins !! i.
Proof.
  revert seen i. induction twins as [|t rest IH]; intros seen i; [done|].
  destruct i as [|i]; simpl.
  - by rewrite app_nil_r.
  - rewrite IH. unfold names. simpl. by rewrite <- app_assoc.
Qed.

(** ** Properties of the merge *)

(** C8.  The merge is a function of the cached twin list and the update twin
    map alone: whatever two orders the [range] statement visits the entries of
    the update map in, the two runs of the loops on the same twin list produce
    the same twin list. *)
Theorem merge_deterministic (U : gmap string types.MsgTwin)
    (entries1 entries2 : list (string * types.MsgTwin))
    (twins : list v1alpha1.Twin) :
  rangeOrder U entries1 → rangeOrder U entries2 →
  mergeTwins entries1 twins = mergeTwins entries2 twins.
Proof.
  intros H1 H2.
  transitivity (firstMatchMerge U [] twins).
  - by apply mergeTwins_rangeOrder.
  - symmetry. by apply mergeTwins_rangeOrder.
Qed.

Lemma merge_deterministic_witness :
  mergeTwins (map_to_list twoReports) sampleTwins
  = mergeTwins (reverse (map_to_list twoReports)) sampleTwins.
Proof.
  apply (merge_deterministic twoReports).
  - unfold rangeOrder. reflexivity.
  - unfold rangeOrder. apply reverse_Permutation.
Defined.

(** C3.  An update that is empty, or each of whose entries either names no
    cached twin or carries a null actual value, is merged as a no-op: the
    loops return the twin list they were given (nothing is appended for an
    unknown name, and a null-actual entry leaves the twin it names as it
    was). *)
Theorem merge_noop (U : gmap string types.MsgTwin)
    (entries : list (string * types.MsgTwin)) (twins : list v1alpha1.Twin) :
  rangeOrder U entries →
  (∀ twinName twin, U !! twinName = Some twin →
     twinName ∉ names twins ∨ ¬ hasActualValue twin) →
  mergeTwins entries twins = twins.
Proof.
  intros Horder Hinert.
  assert (Forall (λ e, e.1 ∉ names twins ∨ reportedOf e.2 = None) entries) as Hall.
  { apply Forall_forall. intros [k twin] Hin.
    rewrite Horder in Hin. apply elem_of_map_to_list in Hin.
    destruct (Hinert k twin Hin) as [?|Hno]; [by left|right].
    simpl. destruct (reportedOf twin) eqn:Hr; [|done].
    exfalso. apply Hno, reportedOf_hasActualValue. by rewrite Hr. }
  clear Horder Hinert.
  induction Hall as [|[k twin] entries Hhd _ IH]; [done|].
  rewrite mergeTwins_cons. simpl in Hhd.
  destruct Hhd as [Hunknown|Hnull].
  - by rewrite scanTwins_unknown.
  - by rewrite scanTwins_no_value.
Qed.

Lemma merge_noop_witness :
  mergeTwins (map_to_list inertUpdate) sampleTwins = sampleTwins.
Proof.
  apply (merge_noop inertUpdate).
  - unfold rangeOrder. reflexivity.
  - intros k twin Hk.
    destruct (decide (k = "pressure")) as [->|Hp].
    + left. vm_compute. by repeat (apply not_elem_of_cons; split; [done|]);
        apply not_elem_of_nil.
    + right. unfold inertUpdate in Hk.
      rewrite lookup_insert_ne in Hk by done.
      apply lookup_singleton_Some in Hk as [_ <-].
      intros (a & v & [= <-] & Hv). discriminate Hv.
Defined.

Lemma mergedTwin_idempotent U seen t :
  mergedTwin U seen (mergedTwin U seen t) = mergedTwin U seen t.
Proof.
  assert (∀ t', v1alpha1.PropertyName t' = v1alpha1.PropertyName t →
            mergedTwin U seen t' =
            if decide (v1alpha1.PropertyName t ∈ seen) then t'
            else match U !! v1alpha1.PropertyName t ≫= reportedOf with
                 | Some r => setReported r t'
                 | None => t'
                 end) as Hunfold.
  { intros t' Hname. unfold mergedTwin. by rewrite Hname. }
  rewrite (Hunfold (mergedTwin U seen t)) by apply mergedTwin_name.
  rewrite (Hunfold t) by done.
  case_decide; [done|].
  by destruct (U !! v1alpha1.PropertyName t ≫= reportedOf).
Qed.

Lemma firstMatchMerge_idempotent U seen twins :
  firstMatchMerge U seen (firstMatchMerge U seen twins)
  = firstMatchMerge U seen twins.
Proof.
  revert seen. induction twins as [|t rest IH]; intros seen; [done|].
  simpl. by rewrite mergedTwin_idempotent, mergedTwin_name, IH.
Qed.

(** C7.  The merge is idempotent: merging the update [U] into the result of
    merging [U] into the twin list gives the list the first merge gave, in
    whatever orders the two runs visit the entries of [U]. *)
Theorem merge_idempotent (U : gmap string types.MsgTwin)
    (entries1 entries2 : list (string * types.MsgTwin))
    (twins : list v1alpha1.Twin) :
  rangeOrder U entries1 → rangeOrder U entries2 →
  mergeTwins entries2 (mergeTwins entries1 twins) = mergeTwins entries1 twins.
Proof.
  intros H1 H2.
  rewrite (mergeTwins_rangeOrder U entries2) by done.
  rewrite (mergeTwins_rangeOrder U entries1) by done.
  apply firstMatchMerge_idempotent.
Qed.

Lemma merge_idempotent_witness :
  mergeTwins (reverse (map_to_list twoReports))
    (mergeTwins (map_to_list twoReports) sampleTwins)
  = mergeTwins (map_to_list twoReports) sampleTwins.
Proof.
  apply (merge_idempotent twoReports).
  - unfold rangeOrder. reflexivity.
  - unfold rangeOrder. apply reverse_Permutation.
Defined.

Lemma mergeTwins_lookup U entries twins i :
  rangeOrder U entries →
  mergeTwins entries twins !! i
  = mergedTwin U (names (take i twins)) <$> twins !! i.
Proof.
  intros Horder. rewrite (mergeTwins_rangeOrder U) by done.
  by rewrite firstMatchMerge_lookup.
Qed.

Lemma names_take_lookup twins i j t :
  i < j → twins !! i = Some t →
  v1alpha1.PropertyName t ∈ names (take j twins).
Proof.
  intros Hlt Hi. unfold names. apply list_elem_of_fmap.
  exists t. split; [done|]. apply list_elem_of_lookup.
  exists i. by rewrite lookup_take_lt.
Qed.

(** The first twin of a name the update has a value for gets the property
    built from the update entry. *)
Lemma mergeTwins_first_of_name U entries twins i t twin actual value :
  rangeOrder U entries →
  twins !! i = Some t → firstOfName twins i →
  U !! v1alpha1.PropertyName t = Some twin →
  types.Actual twin = Some actual → types.Value actual = Some value →
  mergeTwins entries twins !! i
  = Some (setReported (newReported twin actual value) t).
Proof.
  intros Horder Hi (t0 & Hi0 & Hfirst) Hlookup Hactual Hvalue.
  rewrite Hi in Hi0. injection Hi0 as <-.
  rewrite (mergeTwins_lookup U) by done. rewrite Hi. simpl. f_equal.
  unfold mergedTwin. rewrite decide_False by done.
  rewrite Hlookup. simpl.
  unfold reportedOf. by rewrite Hactual, Hvalue.
Qed.

(** C6.  When the name of an update entry is the [propertyName] of several
    cached twins, the first of them in list order is the only one whose
    [Reported] field the merge overwrites: when the entry carries a value,
    the merged list holds at that position a twin with the same name and
    desired side whose [Reported] field is the property built from the
    entry, with the entry's actual value; every later twin of that name is
    left as it was, stale [Reported] field included. *)
Theorem merge_first_match_wins (U : gmap string types.MsgTwin)
    (entries : list (string * types.MsgTwin)) (twins : list v1alpha1.Twin)
    (twinName : string) (twin : types.MsgTwin) :
  rangeOrder U entries →
  U !! twinName = Some twin →
  (∀ i ti actual value,
     twins !! i = Some ti → v1alpha1.PropertyName ti = twinName →
     firstOfName twins i →
     types.Actual twin = Some actual → types.Value actual = Some value →
     ∃ ti',
       mergeTwins entries twins !! i = Some ti'
       ∧ v1alpha1.Reported ti' = newReported twin actual value
       ∧ v1alpha1.Value (v1alpha1.Reported ti') = value
       ∧ v1alpha1.PropertyName ti' = v1alpha1.PropertyName ti
       ∧ v1alpha1.Desired ti' = v1alpha1.Desired ti)
  ∧ (∀ i j ti tj,
       i < j →
       twins !! i = Some ti → v1alpha1.PropertyName ti = twinName →
       twins !! j = Some tj → v1alpha1.PropertyName tj = twinName →
       mergeTwins entries twins !! j = Some tj
       ∧ (v1alpha1.Reported <$> mergeTwins entries twins !! j)
         = Some (v1alpha1.Reported tj)).
Proof.
  intros Horder Hlookup. split.
  - intros i ti actual value Hi Hname Hfirst Hactual Hvalue. subst twinName.
    eexists. split; [by apply (mergeTwins_first_of_name U)|].
    by repeat split.
  - intros i j ti tj Hlt Hi Hni Hj Hnj.
    assert (mergeTwins entries twins !! j = Some tj) as Hsame.
    { rewrite (mergeTwins_lookup U) by done. rewrite Hj. simpl. f_equal.
      unfold mergedTwin. rewrite decide_True; [done|].
      rewrite Hnj, <- Hni. by eapply names_take_lookup. }
    split; [done|]. by rewrite Hsame.
Qed.

Lemma merge_first_match_wins_witness :
  (∃ t0,
     mergeTwins (map_to_list sampleUpdate) sampleTwins !! 0 = Some t0
     ∧ v1alpha1.Reported t0
       = {| v1alpha1.Value := "42";
            v1alpha1.Metadata :=
              Some {[ "timestamp" := "1000"; "type" := "int" ]} |}
     ∧ v1alpha1.Value (v1alpha1.Reported t0) = "42"
     ∧ v1alpha1.PropertyName t0 = "temperature"
     ∧ v1alpha1.Desired t0 = unsetProperty)
  ∧ mergeTwins (map_to_list sampleUpdate) sampleTwins !! 2
    = Some (sampleTwin "temperature")
  ∧ (v1alpha1.Reported <$> mergeTwins (map_to_list sampleUpdate) sampleTwins !! 2)
    = Some staleReported.
Proof.
  pose proof (merge_first_match_wins sampleUpdate (map_to_list sampleUpdate)
                sampleTwins "temperature" (report "42" 1000 "int")) as H.
  destruct H as [Hfirst Hlater].
  - unfold rangeOrder. reflexivity.
  - reflexivity.
  - split.
    + apply (Hfirst 0 (sampleTwin "temperature")
               {| types.Value := Some "42";
                  types.Metadata := Some {| types.Timestamp := 1000 |} |} "42");
        try reflexivity.
      exists (sampleTwin "temperature"). split; [reflexivity|].
      simpl. apply not_elem_of_nil.
    + apply (Hlater 0 2 (sampleTwin "temperature") (sampleTwin "temperature"));
        try reflexivity. lia.
Defined.

Lemma newReported_metadata twin actual value :
  ∃ m, v1alpha1.Metadata (newReported twin actual value) = Some m
    ∧ m !! "timestamp"
      = (λ md, FormatInt10 (types.Timestamp md)) <$> types.Metadata actual
    ∧ m !! "type" = types.Type_ <$> types.TwinMetadata twin
    ∧ ∀ key, key ≠ "timestamp" → key ≠ "type" → m !! key = None.
Proof.
  unfold newReported. eexists. split; [done|].
  destruct (types.Metadata actual) as [vm|], (types.TwinMetadata twin) as [tm|];
    simpl; repeat split; intros;
    by repeat first [ rewrite lookup_insert_eq | rewrite lookup_insert_ne by done
                    | rewrite lookup_empty ].
Qed.

Lemma sameButReported_names twins twins' :
  Forall2 sameButReported twins twins' → names twins' = names twins.
Proof.
  induction 1 as [|t t' rest rest' [Hname _] _ IH]; [done|].
  unfold names in *. rewrite !fmap_cons. by f_equal.
Qed.

(** C2.  Where the merge applies to a matched twin (the first of its name,
    named by an update entry with a non-null actual value), the twin's
    [Reported] field becomes a property whose value is the actual value and
    whose metadata map holds ["timestamp"], bound to the decimal string of the
    actual report's timestamp, exactly when the actual report has metadata,
    ["type"], bound to the entry's declared type, exactly when the entry has
    metadata, and no other key.  The previous [Reported] contents play no
    part: twin lists that differ in their [Reported] fields only get the same
    [Reported] there. *)
Theorem merge_reported_fresh (U : gmap string types.MsgTwin)
    (entries : list (string * types.MsgTwin)) (twins : list v1alpha1.Twin)
    (i : nat) (t : v1alpha1.Twin) (twin : types.MsgTwin)
    (actual : types.TwinValue) (value : string) :
  rangeOrder U entries →
  twins !! i = Some t → firstOfName twins i →
  U !! v1alpha1.PropertyName t = Some twin →
  types.Actual twin = Some actual → types.Value actual = Some value →
  ∃ t' m,
    mergeTwins entries twins !! i = Some t'
    ∧ v1alpha1.Value (v1alpha1.Reported t') = value
    ∧ v1alpha1.Metadata (v1alpha1.Reported t') = Some m
    ∧ m !! "timestamp"
      = (λ md, FormatInt10 (types.Timestamp md)) <$> types.Metadata actual
    ∧ m !! "type" = types.Type_ <$> types.TwinMetadata twin
    ∧ (∀ key, key ≠ "timestamp" → key ≠ "type" → m !! key = None)
    ∧ (∀ twins2, Forall2 sameButReported twins twins2 →
         ∃ t2', mergeTwins entries twins2 !! i = Some t2'
           ∧ v1alpha1.Reported t2' = v1alpha1.Reported t').
Proof.
  intros Horder Hi Hfirst Hlookup Hactual Hvalue.
  pose proof (mergeTwins_first_of_name U entries twins i t twin actual value
                Horder Hi Hfirst Hlookup Hactual Hvalue) as Hmerged.
  destruct (newReported_metadata twin actual value) as (m & Hm & Hts & Hty & Hno).
  exists (setReported (newReported twin actual value) t), m.
  repeat split; try done.
  intros twins2 Hsame.
  destruct (Forall2_lookup_l _ _ _ _ _ Hsame Hi) as (t2 & Hi2 & Hname2 & _).
  exists (setReported (newReported twin actual value) t2). split; [|done].
  apply (mergeTwins_first_of_name U); try done.
  - exists t2. split; [done|].
    destruct Hfirst as (t0 & Hi0 & Hfirst). rewrite Hi in Hi0. injection Hi0 as <-.
    rewrite Hname2.
    by rewrite (sameButReported_names (take i twins) (take i twins2))
      by by apply Forall2_take.
  - by rewrite Hname2.
Qed.

Lemma merge_reported_fresh_witness :
  ∃ t' m,
    mergeTwins (map_to_list sampleUpdate) sampleTwins !! 0 = Some t'
    ∧ v1alpha1.Value (v1alpha1.Reported t') = "42"
    ∧ v1alpha1.Metadata (v1alpha1.Reported t') = Some m
    ∧ m !! "timestamp" = Some "1000"
    ∧ m !! "type" = Some "int"
    ∧ (∀ key, key ≠ "timestamp" → key ≠ "type" → m !! key = None)
    ∧ (∀ twins2, Forall2 sameButReported sampleTwins twins2 →
         ∃ t2', mergeTwins (map_to_list sampleUpdate) twins2 !! 0 = Some t2'
           ∧ v1alpha1.Reported t2' = v1alpha1.Reported t').
Proof.
  apply (merge_reported_fresh sampleUpdate (map_to_list sampleUpdate)
           sampleTwins 0 (sampleTwin "temperature") (report "42" 1000 "int")
           {| types.Value := Some "42";
              types.Metadata := Some {| types.Timestamp := 1000 |} |} "42").
  - unfold rangeOrder. reflexivity.
  - reflexivity.
  - exists (sampleTwin "temperature"). split; [reflexivity|].
    simpl. apply not_elem_of_nil.
  - reflexivity.
  - reflexivity.
  - reflexivity.
Defined.

Lemma names_first_occurrence twins twinName :
  twinName ∈ names twins →
  ∃ i t, twins !! i = Some t ∧ v1alpha1.PropertyName t = twinName
    ∧ firstOfName twins i.
Proof.
  induction twins as [|t0 rest IH]; [by intros ?%elem_of_nil|].
  intros Hin.
  destruct (decide (v1alpha1.PropertyName t0 = twinName)) as [Heq|Hne].
  - exists 0, t0. repeat split; [done|].
    exists t0. split; [done|]. simpl. apply not_elem_of_nil.
  - unfold names in Hin. rewrite fmap_cons in Hin.
    apply elem_of_cons in Hin as [Heq|Hin]; [by subst|].
    destruct (IH Hin) as (i & t & Hi & Hname & (t' & Hi' & Hfirst)).
    exists (S i), t. repeat split; [done..|].
    exists t'. split; [done|]. simpl.
    apply not_elem_of_cons. split; [|done].
    rewrite Hi in Hi'. injection Hi' as <-. congruence.
Qed.

Lemma scanTwins_sameButReported twinName twin twins :
  Forall2 sameButReported twins (scanTwins twinName twin twins).
Proof.
  induction twins as [|t rest IH]; [constructor|].
  rewrite scanTwins_cons.
  destruct (reportedOf twin) as [r|]; [case_decide|]; constructor; try done.
  apply Forall2_same_length_lookup. split; [done|].
  intros j x y Hx Hy. rewrite Hx in Hy. by injection Hy as <-.
Qed.

Lemma sameButReported_trans t1 t2 t3 :
  sameButReported t1 t2 → sameButReported t2 t3 → sameButReported t1 t3.
Proof. intros [? ?] [? ?]. split; congruence. Qed.

Lemma mergeTwins_sameButReported entries twins :
  Forall2 sameButReported twins (mergeTwins entries twins).
Proof.
  revert twins. induction entries as [|[k twin] entries IH]; intros twins.
  - apply Forall2_same_length_lookup. split; [done|].
    intros j x y Hx Hy. unfold mergeTwins in Hy. simpl in Hy.
    rewrite Hx in Hy. by injection Hy as <-.
  - rewrite mergeTwins_cons.
    eapply Forall2_trans; [|apply scanTwins_sameButReported|apply IH].
    intros ???. apply sameButReported_trans.
Qed.

(** ** The worker: what one message does to the world *)

Lemma unmarshal_result {V} (uc : Collaborators V) (msg : Message V) :
  (∃ e, unmarshalDeviceStatusMessage uc msg = (None, Some e))
  ∨ (∃ u, unmarshalDeviceStatusMessage uc msg = (Some u, None)).
Proof.
  unfold unmarshalDeviceStatusMessage.
  destruct (GetContent msg) as [b|v].
  - destruct (json_Unmarshal uc b _) as [u [e|]]; eauto.
  - destruct (json_Marshal uc v) as [data [e|]]; [eauto|].
    destruct (json_Unmarshal uc data _) as [u [e|]]; eauto.
Qed.

Lemma writeStatus_heap p status w d :
  heap w !! p = Some d →
  heap (writeStatus p status w)
  = <[p := {| v1alpha1.Name := v1alpha1.Name d;
              v1alpha1.Namespace := v1alpha1.Namespace d;
              v1alpha1.Status := status |}]> (heap w).
Proof.
  intros Hp. simpl. apply map_eq. intros q.
  destruct (decide (p = q)) as [<-|Hne].
  - by rewrite lookup_alter_eq, lookup_insert_eq, Hp.
  - by rewrite lookup_alter_ne, lookup_insert_ne.
Qed.

(** Once the update is decoded, the identifier resolved and the device
    loaded, the message runs through the write-back, and only then through
    serialization and publication. *)
Lemma processMessage_loaded {V} (uc : Collaborators V) msg w
    msgTwin deviceID p cacheDevice :
  unmarshalDeviceStatusMessage uc msg = (Some msgTwin, None) →
  GetDeviceID uc (GetResource msg) = (deviceID, None) →
  deviceCache w !! deviceID = Some (DevicePtr p) →
  heap w !! p = Some cacheDevice →
  let merged := mergedDevice (visit uc (types.Twin msgTwin)) cacheDevice in
  let w1 := storedWorld deviceID p merged w in
  processMessage uc msg w =
  match json_MarshalStatus uc {| Status := v1alpha1.Status merged |} with
  | (_, Some err) => Some (klog Error "Failed to marshal device status" w1)
  | (body, None) =>
      let request :=
        {| patchType := MergePatchType;
           patchNamespace := v1alpha1.Namespace cacheDevice;
           patchResource := ResourceTypeDevices;
           patchName := deviceID;
           patchBody := body |} in
      match Do uc request with
      | Some err =>
          Some (klog Error "Failed to patch device status"
                  (emit (EvPatch request) w1))
      | None =>
          Some (klog Info "Message process successfully"
                  (emit (EvPatch request) w1))
      end
  end.
Proof.
  intros Hdecode Hid Hload Hheap merged w1.
  unfold processMessage. rewrite Hdecode, Hid. simpl. rewrite Hload, Hheap.
  set (twins := mergeTwins _ _).
  assert (Store deviceID p
            (writeStatus p {| v1alpha1.Twins := twins |}
               (writeStatus p {| v1alpha1.Twins := twins |}
                  (klog Info "Message, operation and resource" w))) = w1) as ->.
  { unfold Store, emit, w1, storedWorld. f_equal.
    - rewrite (writeStatus_heap _ _ _ merged).
      + rewrite (writeStatus_heap _ _ _ cacheDevice) by done.
        simpl. by rewrite insert_insert_eq.
      + rewrite (writeStatus_heap _ _ _ cacheDevice) by done.
        by rewrite lookup_insert_eq.
    - simpl. by rewrite <- app_assoc. }
  done.
Qed.

Lemma abandoned_klog2 s1 text1 s2 text2 w :
  abandoned w (klog s2 text2 (klog s1 text1 w)).
Proof.
  repeat split. exists [EvLog s1 text1; EvLog s2 text2]. split.
  - simpl. by rewrite <- app_assoc.
  - repeat constructor; by eexists _, _.
Qed.

(** Every run of [processMessage] that does not panic either abandons the
    message or has loaded a device and merged into it. *)
Lemma processMessage_cases {V} (uc : Collaborators V) msg w w' :
  processMessage uc msg w = Some w' →
  abandoned w w'
  ∨ ∃ msgTwin deviceID p cacheDevice,
      unmarshalDeviceStatusMessage uc msg = (Some msgTwin, None)
      ∧ GetDeviceID uc (GetResource msg) = (deviceID, None)
      ∧ deviceCache w !! deviceID = Some (DevicePtr p)
      ∧ heap w !! p = Some cacheDevice.
Proof.
  intros Hrun.
  destruct (unmarshal_result uc msg) as [[e He]|[u Hu]].
  { left. unfold processMessage in Hrun. rewrite He in Hrun.
    injection Hrun as <-. apply abandoned_klog2. }
  destruct (GetDeviceID uc (GetResource msg)) as [deviceID [e|]] eqn:Hid.
  { left. unfold processMessage in Hrun. rewrite Hu, Hid in Hrun.
    injection Hrun as <-. apply abandoned_klog2. }
  destruct (deviceCache w !! deviceID) as [[p|]|] eqn:Hload.
  - destruct (heap w !! p) as [cacheDevice|] eqn:Hheap.
    + right. by exists u, deviceID, p, cacheDevice.
    + unfold processMessage in Hrun. rewrite Hu, Hid in Hrun. simpl in Hrun.
      by rewrite Hload, Hheap in Hrun.
  - left. unfold processMessage in Hrun. rewrite Hu, Hid in Hrun.
    simpl in Hrun. rewrite Hload in Hrun.
    injection Hrun as <-. apply abandoned_klog2.
  - left. unfold processMessage in Hrun. rewrite Hu, Hid in Hrun.
    simpl in Hrun. rewrite Hload in Hrun.
    injection Hrun as <-. apply abandoned_klog2.
Qed.

(** C4.  When the device identifier of a message is not in the device cache,
    processing the message changes neither the cache nor the cached devices
    and leaves nothing but log lines behind (no store, no patch request),
    and the worker loop goes on with the messages that follow. *)
Theorem unknown_device_dropped {V} (uc : Collaborators V) (msg : Message V)
    (w : World) (deviceID : string) :
  GetDeviceID uc (GetResource msg) = (deviceID, None) →
  deviceCache w !! deviceID = None →
  ∃ w' logs,
    processMessage uc msg w = Some w'
    ∧ deviceCache w' = deviceCache w
    ∧ heap w' = heap w
    ∧ trace w' = trace w ++ logs
    ∧ Forall isLog logs
    ∧ ∀ rest, updateDeviceStatus uc (Dequeued msg :: rest) w
              = updateDeviceStatus uc rest w'.
Proof.
  intros Hid Hmiss.
  assert (∃ w', processMessage uc msg w = Some w') as [w' Hrun].
  { unfold processMessage.
    destruct (unmarshal_result uc msg) as [[e ->]|[u ->]]; [eauto|].
    rewrite Hid. simpl. rewrite Hmiss. eauto. }
  destruct (processMessage_cases uc msg w w' Hrun)
    as [(Hcache & Hheap & logs & Htrace & Hlogs)
       |(u & deviceID' & p & d & _ & Hid' & Hload & _)].
  - exists w', logs. repeat split; try done.
    intros rest. simpl. by rewrite Hrun.
  - rewrite Hid in Hid'. injection Hid' as <-. by rewrite Hmiss in Hload.
Qed.

Lemma unknown_device_dropped_witness :
  ∃ w' logs,
    processMessage sampleCollaborators (sampleMessage "dev-2") sampleWorld = Some w'
    ∧ deviceCache w' = deviceCache sampleWorld
    ∧ heap w' = heap sampleWorld
    ∧ trace w' = trace sampleWorld ++ logs
    ∧ Forall isLog logs
    ∧ ∀ rest,
        updateDeviceStatus sampleCollaborators
          (Dequeued (sampleMessage "dev-2") :: rest) sampleWorld
        = updateDeviceStatus sampleCollaborators rest w'.
Proof.
  apply (unknown_device_dropped sampleCollaborators (sampleMessage "dev-2")
           sampleWorld "dev-2").
  - reflexivity.
  - reflexivity.
Defined.

(** C5.  Once a message is decoded, its device identifier resolved and the
    device loaded from the cache, the merged device is in the cache, under
    the same identifier, before any patch request is made: the store is the
    second event of the run, after one log line, and whatever follows it is
    a patch request or a log line.  The cache and the cached devices the run
    ends with are the same whatever the serializer and the resource store
    answer. *)
Theorem cache_stored_before_publish {V} (uc : Collaborators V)
    (msg : Message V) (w : World) (msgTwin : types.DeviceTwinUpdate)
    (deviceID : string) (p : loc) (cacheDevice : v1alpha1.Device) :
  unmarshalDeviceStatusMessage uc msg = (Some msgTwin, None) →
  GetDeviceID uc (GetResource msg) = (deviceID, None) →
  deviceCache w !! deviceID = Some (DevicePtr p) →
  heap w !! p = Some cacheDevice →
  let merged := mergedDevice (visit uc (types.Twin msgTwin)) cacheDevice in
  ∃ w' text after,
    processMessage uc msg w = Some w'
    ∧ cachedDevice w' deviceID = Some merged
    ∧ trace w' = trace w ++ [EvLog Info text; EvStore deviceID p] ++ after
    ∧ Forall (λ e, isPatch e ∨ isLog e) after
    ∧ ∀ marshal do,
        ∃ w'', processMessage (withStore marshal do uc) msg w = Some w''
          ∧ deviceCache w'' = deviceCache w'
          ∧ heap w'' = heap w'.
Proof.
  intros Hdecode Hid Hload Hheap merged.
  assert (∀ uc' : Collaborators V,
            unmarshalDeviceStatusMessage uc' msg = (Some msgTwin, None) →
            GetDeviceID uc' (GetResource msg) = (deviceID, None) →
            visit uc' = visit uc →
            ∃ w' after,
              processMessage uc' msg w = Some w'
              ∧ deviceCache w' = <[deviceID := DevicePtr p]> (deviceCache w)
              ∧ heap w' = <[p := merged]> (heap w)
              ∧ trace w' = trace (storedWorld deviceID p merged w) ++ after
              ∧ Forall (λ e, isPatch e ∨ isLog e) after) as Hrun.
  { intros uc' Hdecode' Hid' Hvisit.
    rewrite (processMessage_loaded uc' msg w msgTwin deviceID p cacheDevice)
      by done.
    rewrite Hvisit. fold merged.
    destruct (json_MarshalStatus uc' _) as [body [err|]].
    - eexists _, [_]. do 4 (split; [done|]).
      apply Forall_singleton. right. by eexists _, _.
    - cbv zeta.
      match goal with |- context [Do uc' ?r] => destruct (Do uc' r) as [err|] end.
      + eexists _, [_; _]. do 3 (split; [done|]).
        split; [simpl; by rewrite <- app_assoc|].
        apply Forall_cons. split; [left; by eexists|].
        apply Forall_singleton. right. by eexists _, _.
      + eexists _, [_; _]. do 3 (split; [done|]).
        split; [simpl; by rewrite <- app_assoc|].
        apply Forall_cons. split; [left; by eexists|].
        apply Forall_singleton. right. by eexists _, _. }
  destruct (Hrun uc Hdecode Hid eq_refl)
    as (w' & after & Hw' & Hcache & Hheap' & Htrace & Hafter).
  exists w', "Message, operation and resource", after. repeat split; try done.
  - unfold cachedDevice. by rewrite Hcache, lookup_insert_eq, Hheap', lookup_insert_eq.
  - rewrite Htrace. simpl. by rewrite <- app_assoc.
  - intros marshal do.
    destruct (Hrun (withStore marshal do uc) Hdecode Hid eq_refl)
      as (w'' & _ & Hw'' & Hcache'' & Hheap'' & _).
    exists w''. by rewrite Hcache'', Hheap'', Hcache, Hheap'.
Qed.

Lemma cache_stored_before_publish_witness :
  ∃ w' text after,
    processMessage sampleCollaborators (sampleMessage "dev-1") sampleWorld
    = Some w'
    ∧ cachedDevice w' "dev-1"
      = Some (mergedDevice (map_to_list sampleUpdate) dev1)
    ∧ trace w'
      = trace sampleWorld
        ++ [EvLog Info text; EvStore "dev-1" 1%positive] ++ after
    ∧ Forall (λ e, isPatch e ∨ isLog e) after
    ∧ ∀ marshal do,
        ∃ w'', processMessage (withStore marshal do sampleCollaborators)
                 (sampleMessage "dev-1") sampleWorld = Some w''
          ∧ deviceCache w'' = deviceCache w'
          ∧ heap w'' = heap w'.
Proof.
  apply (cache_stored_before_publish sampleCollaborators
           (sampleMessage "dev-1") sampleWorld
           {| types.Twin := sampleUpdate |} "dev-1" 1%positive dev1).
  - reflexivity.
  - reflexivity.
  - reflexivity.
  - reflexivity.
Defined.

(** The merge never touches a device's name, namespace, twin names or
    desired sides, and no device enters or leaves the cache. *)
Lemma processMessage_frame {V} (uc : Collaborators V) msg w w' :
  processMessage uc msg w = Some w' →
  ∀ deviceID,
    match cachedDevice w deviceID with
    | Some d => ∃ d', cachedDevice w' deviceID = Some d' ∧ sameStructure d d'
    | None => cachedDevice w' deviceID = None
    end.
Proof.
  intros Hrun deviceID.
  destruct (processMessage_cases uc msg w w' Hrun)
    as [(Hcache & Hheap & _)|(u & id & p & d0 & Hdecode & Hid & Hload & Hp)].
  { unfold cachedDevice. rewrite Hcache, Hheap.
    destruct (deviceCache w !! deviceID) as [[q|]|]; [|done..].
    destruct (heap w !! q) as [d|]; [|done].
    exists d. split; [done|]. repeat split.
    apply Forall2_same_length_lookup. split; [done|].
    intros j x y Hx Hy. rewrite Hx in Hy. by injection Hy as <-. }
  assert (deviceCache w' = deviceCache w
          ∧ heap w' = <[p := mergedDevice (visit uc (types.Twin u)) d0]> (heap w))
    as [Hcache Hheap].
  { rewrite (processMessage_loaded uc msg w u id p d0) in Hrun by done.
    cbv zeta in Hrun.
    destruct (json_MarshalStatus uc _) as [body [err|]].
    - injection Hrun as <-. split; [by apply insert_id|done].
    - match type of Hrun with context [Do uc ?r] =>
        destruct (Do uc r) as [err|] end;
        injection Hrun as <-; (split; [by apply insert_id|done]). }
  unfold cachedDevice. rewrite Hcache, Hheap.
  destruct (deviceCache w !! deviceID) as [[q|]|]; [|done..].
  destruct (decide (p = q)) as [<-|Hne].
  - rewrite lookup_insert_eq, Hp. eexists. split; [done|].
    repeat split. apply mergeTwins_sameButReported.
  - rewrite lookup_insert_ne by done.
    destruct (heap w !! q) as [d|]; [|done].
    exists d. split; [done|]. repeat split.
    apply Forall2_same_length_lookup. split; [done|].
    intros j x y Hx Hy. rewrite Hx in Hy. by injection Hy as <-.
Qed.

(** C1, as the code has it.  For an update [U] all of whose keys occur as
    [propertyName] in the cached twin list and all of whose entries carry a
    non-null actual value, the merge returns a twin list of the same length
    and order in which the twins whose [Reported] field is replaced (by the
    property built from the update entry) are exactly the first twin, in list
    order, of each name in [U]: every key of [U] has such a twin, and every
    other twin (not named by [U], or a later twin of a name met before) is
    unchanged.  No twin changes its [propertyName] or its desired side, and a
    run of the worker leaves the name, the namespace and the twin membership
    of every cached device as they were. *)
Theorem merge_replaces_first_named (U : gmap string types.MsgTwin)
    (entries : list (string * types.MsgTwin)) (twins : list v1alpha1.Twin) :
  rangeOrder U entries →
  (∀ twinName, twinName ∈ dom U → twinName ∈ names twins) →
  (∀ twinName twin, U !! twinName = Some twin → hasActualValue twin) →
  length (mergeTwins entries twins) = length twins
  ∧ (∀ i t, twins !! i = Some t →
       ∃ t', mergeTwins entries twins !! i = Some t'
         ∧ sameButReported t t'
         ∧ (namedBy U t ∧ firstOfName twins i →
              ∃ twin actual value,
                U !! v1alpha1.PropertyName t = Some twin
                ∧ types.Actual twin = Some actual
                ∧ types.Value actual = Some value
                ∧ v1alpha1.Reported t' = newReported twin actual value)
         ∧ (¬ (namedBy U t ∧ firstOfName twins i) → t' = t))
  ∧ (∀ twinName, twinName ∈ dom U →
       ∃ i t, twins !! i = Some t ∧ v1alpha1.PropertyName t = twinName
         ∧ firstOfName twins i)
  ∧ (∀ V (uc : Collaborators V) msg w w' deviceID d,
       processMessage uc msg w = Some w' →
       cachedDevice w deviceID = Some d →
       ∃ d', cachedDevice w' deviceID = Some d' ∧ sameStructure d d').
Proof.
  intros Horder Hknown Hvalues. repeat split.
  - rewrite (mergeTwins_rangeOrder U) by done. apply firstMatchMerge_length.
  - intros i t Hi.
    exists (mergedTwin U (names (take i twins)) t).
    split; [by rewrite (mergeTwins_lookup U), Hi|].
    split; [split; [apply mergedTwin_name|apply mergedTwin_desired]|].
    split.
    + intros [Hnamed (t0 & Hi0 & Hfirst)].
      rewrite Hi in Hi0. injection Hi0 as <-.
      apply elem_of_dom in Hnamed as [twin Htwin].
      destruct (Hvalues _ _ Htwin) as (actual & value & Hactual & Hvalue).
      exists twin, actual, value. repeat split; try done.
      unfold mergedTwin. rewrite decide_False by done.
      rewrite Htwin. simpl. unfold reportedOf. by rewrite Hactual, Hvalue.
    + intros Hnot. unfold mergedTwin. case_decide as Hseen; [done|].
      destruct (U !! v1alpha1.PropertyName t) as [twin|] eqn:Htwin; [|done].
      exfalso. apply Hnot. split.
      * apply elem_of_dom. by exists twin.
      * by exists t.
  - intros twinName Hin. by apply names_first_occurrence, Hknown.
  - intros V uc msg w w' deviceID d Hrun Hd.
    pose proof (processMessage_frame uc msg w w' Hrun deviceID) as Hframe.
    by rewrite Hd in Hframe.
Qed.

Lemma merge_replaces_first_named_witness :
  length (mergeTwins (map_to_list twoReports) sampleTwins) = length sampleTwins
  ∧ (∀ i t, sampleTwins !! i = Some t →
       ∃ t', mergeTwins (map_to_list twoReports) sampleTwins !! i = Some t'
         ∧ sameButReported t t'
         ∧ (namedBy twoReports t ∧ firstOfName sampleTwins i →
              ∃ twin actual value,
                twoReports !! v1alpha1.PropertyName t = Some twin
                ∧ types.Actual twin = Some actual
                ∧ types.Value actual = Some value
                ∧ v1alpha1.Reported t' = newReported twin actual value)
         ∧ (¬ (namedBy twoReports t ∧ firstOfName sampleTwins i) → t' = t))
  ∧ (∀ twinName, twinName ∈ dom twoReports →
       ∃ i t, sampleTwins !! i = Some t ∧ v1alpha1.PropertyName t = twinName
         ∧ firstOfName sampleTwins i)
  ∧ (∀ V (uc : Collaborators V) msg w w' deviceID d,
       processMessage uc msg w = Some w' →
       cachedDevice w deviceID = Some d →
       ∃ d', cachedDevice w' deviceID = Some d' ∧ sameStructure d d').
Proof.
  apply (merge_replaces_first_named twoReports (map_to_list twoReports)
           sampleTwins).
  - unfold rangeOrder. reflexivity.
  - intros twinName Hin. unfold twoReports in Hin.
    rewrite dom_insert_L, dom_singleton_L in Hin.
    apply elem_of_union in Hin as [->%elem_of_singleton| ->%elem_of_singleton].
    + apply list_elem_of_here.
    + apply list_elem_of_further, list_elem_of_here.
  - intros twinName twin Hlookup. unfold twoReports in Hlookup.
    apply lookup_insert_Some in Hlookup as [[_ <-]|[_ Hlookup]].
    + by eexists _, _.
    + apply lookup_singleton_Some in Hlookup as [_ <-]. by eexists _, _.
Defined.

(** C1 as stated fails on a twin list with a repeated name: the update
    [sampleUpdate] satisfies both conditions on [sampleTwins] and names the
    twin at position 2, yet the merge leaves that twin with its stale
    [Reported] field: only the twin at position 0 gets the reported value. *)
Lemma merge_named_entries_counterexample :
  rangeOrder sampleUpdate (map_to_list sampleUpdate)
  ∧ (∀ twinName, twinName ∈ dom sampleUpdate → twinName ∈ names sampleTwins)
  ∧ (∀ twinName twin, sampleUpdate !! twinName = Some twin → hasActualValue twin)
  ∧ ¬ replacesEveryNamed sampleUpdate (map_to_list sampleUpdate) sampleTwins.
Proof.
  split; [unfold rangeOrder; reflexivity|].
  split.
  { intros twinName Hin. unfold sampleUpdate in Hin.
    rewrite dom_singleton_L in Hin. apply elem_of_singleton in Hin as ->.
    apply list_elem_of_here. }
  split.
  { intros twinName twin Hlookup. unfold sampleUpdate in Hlookup.
    apply lookup_singleton_Some in Hlookup as [_ <-]. by eexists _, _. }
  intros Hall.
  destruct (Hall 2 (sampleTwin "temperature")) as
    (t' & twin & actual & value & Hmerged & Hlookup & Hactual & Hvalue & Hrep).
  - reflexivity.
  - unfold namedBy, sampleUpdate. rewrite dom_singleton_L.
    by apply elem_of_singleton.
  - vm_compute in Hmerged. injection Hmerged as <-.
    vm_compute in Hlookup. injection Hlookup as <-.
    injection Hactual as <-. injection Hvalue as <-.
    discriminate Hrep.
Qed.

(** ** The dispatcher and the decoder *)

Lemma dispatchOne_chan {V} (uc : Collaborators V) received d :
  deviceStatusChan (dispatchOne uc received d)
  = deviceStatusChan d
    ++ match received.2, GetResourceType uc (GetResource received.1) with
       | None, (resourceType, None) =>
           if bool_decide (resourceType = ResourceTypeTwinEdgeUpdated uc)
           then [received.1] else []
       | _, _ => []
       end.
Proof.
  destruct received as [msg [e|]]; simpl; [by rewrite app_nil_r|].
  destruct (GetResourceType uc (GetResource msg)) as [rt [e|]];
    [by rewrite app_nil_r|].
  case_bool_decide; [done|]. by rewrite app_nil_r.
Qed.

(** C9.  An iteration of the dispatch loop that gets past the cancellation
    check puts the message on the worker queue if and only if the receive
    returned no error and the resource locator of the message parses to the
    twin-update resource type; after a receive error, a locator that does not
    parse, or any other resource type, the queue is as it was.  Either way
    the loop goes on with the next receive. *)
Theorem dispatch_enqueues_twin_updates {V} (uc : Collaborators V)
    (received : result (Message V)) (d : Dispatcher) :
  (twinUpdateReceived uc received ↔
     deviceStatusChan (dispatchOne uc received d)
     = deviceStatusChan d ++ [received.1])
  ∧ (¬ twinUpdateReceived uc received ↔
       deviceStatusChan (dispatchOne uc received d) = deviceStatusChan d)
  ∧ (∀ rest, dispatchMessage uc (Received received :: rest) d
             = dispatchMessage uc rest (dispatchOne uc received d)).
Proof.
  assert (∀ (l : list (Message V)) x, l ++ [x] ≠ l) as Hgrow.
  { intros l x Heq. apply (f_equal length) in Heq.
    rewrite length_app in Heq. simpl in Heq. lia. }
  assert (twinUpdateReceived uc received ∧
            deviceStatusChan (dispatchOne uc received d)
            = deviceStatusChan d ++ [received.1]
          ∨ ¬ twinUpdateReceived uc received ∧
            deviceStatusChan (dispatchOne uc received d) = deviceStatusChan d)
    as Hcases.
  { rewrite dispatchOne_chan. unfold twinUpdateReceived.
    destruct received as [msg [e|]]; simpl.
    { right. split; [by intros [? _]|by rewrite app_nil_r]. }
    destruct (GetResourceType uc (GetResource msg)) as [rt [e|]].
    { right. split; [by intros [_ ?]|by rewrite app_nil_r]. }
    case_bool_decide as Hrt.
    - left. by subst rt.
    - right. split; [|by rewrite app_nil_r].
      intros [_ [= ?]]. by apply Hrt. }
  split; [|split].
  - destruct Hcases as [[Hyes Hchan]|[Hno Hchan]]; [done|].
    split; [done|]. rewrite Hchan. intros Heq. symmetry in Heq.
    by apply Hgrow in Heq.
  - destruct Hcases as [[Hyes Hchan]|[Hno Hchan]]; [|done].
    split; [done|]. rewrite Hchan. intros Heq. by apply Hgrow in Heq.
  - done.
Qed.

(** C10.  The decoder takes content of two shapes.  A byte slice goes to
    [json.Unmarshal] as it is; any other value is marshalled first and the
    bytes obtained are unmarshalled, so such content decodes whenever both
    steps succeed.  The decoder returns an error exactly when the marshal
    step or the final unmarshal step fails, and then it returns no update;
    without an error it returns one. *)
Theorem decode_two_shapes {V} (uc : Collaborators V) (msg : Message V) :
  (∀ b, GetContent msg = ContentBytes b →
     unmarshalDeviceStatusMessage uc msg
     = decoded (json_Unmarshal uc b zeroUpdate))
  ∧ (∀ v data, GetContent msg = ContentOther v →
       json_Marshal uc v = (data, None) →
       unmarshalDeviceStatusMessage uc msg
       = decoded (json_Unmarshal uc data zeroUpdate))
  ∧ (∀ v data twinUpdate, GetContent msg = ContentOther v →
       json_Marshal uc v = (data, None) →
       json_Unmarshal uc data zeroUpdate = (twinUpdate, None) →
       unmarshalDeviceStatusMessage uc msg = (Some twinUpdate, None))
  ∧ (is_Some (unmarshalDeviceStatusMessage uc msg).2
     ↔ marshalStepFails uc msg ∨ unmarshalStepFails uc msg)
  ∧ (is_Some (unmarshalDeviceStatusMessage uc msg).2 →
     (unmarshalDeviceStatusMessage uc msg).1 = None)
  ∧ ((unmarshalDeviceStatusMessage uc msg).2 = None →
     is_Some (unmarshalDeviceStatusMessage uc msg).1).
Proof.
  unfold marshalStepFails, unmarshalStepFails, contentData,
    unmarshalDeviceStatusMessage, zeroUpdate.
  destruct (GetContent msg) as [b|v] eqn:Hcontent.
  - destruct (json_Unmarshal uc b _) as [u [e|]] eqn:Hun.
    + repeat split; try done.
      * by intros b' [= <-]; rewrite Hun.
      * intros _. right. exists b. by rewrite Hun.
    + repeat split; try done.
      * by intros b' [= <-]; rewrite Hun.
      * by intros [? ?].
      * intros [(v & ? & _)|(data & [= <-] & Hfail)]; [done|].
        rewrite Hun in Hfail. by destruct Hfail.
      * by intros [? ?].
  - destruct (json_Marshal uc v) as [data [e|]] eqn:Hmar.
    + repeat split; try done.
      * intros v' data' [= <-]. by rewrite Hmar.
      * intros v' data' u [= <-]. by rewrite Hmar.
      * intros _. left. exists v. by rewrite Hmar.
    + destruct (json_Unmarshal uc data _) as [u [e|]] eqn:Hun.
      * repeat split; try done.
        -- intros v' data' [= <-]. rewrite Hmar. intros [= <-]. by rewrite Hun.
        -- intros v' data' u' [= <-]. rewrite Hmar. intros [= <-].
           by rewrite Hun.
        -- intros _. right. exists data. by rewrite Hun.
      * repeat split; try done.
        -- intros v' data' [= <-]. rewrite Hmar. intros [= <-]. by rewrite Hun.
        -- intros v' data' u' [= <-]. rewrite Hmar. intros [= <-].
           rewrite Hun. by intros [= <-].
        -- by intros [? ?].
        -- intros [(v' & [= <-] & Hfail)|(data' & [= <-] & Hfail)].
           ++ rewrite Hmar in Hfail. by destruct Hfail.
           ++ rewrite Hun in Hfail. by destruct Hfail.
        -- by intros [? ?].
Qed.

(** A structured content value that decodes: the sample message. *)
Example decode_structured_content :
  GetContent (sampleMessage "dev-1") = ContentOther ()
  ∧ unmarshalDeviceStatusMessage sampleCollaborators (sampleMessage "dev-1")
    = (Some {| types.Twin := sampleUpdate |}, None).
Proof. split; reflexivity. Qed.

(** ** The spec's scenarios on the sample device *)

Example FormatInt10_samples :
  FormatInt10 1000 = "1000" ∧ FormatInt10 0 = "0" ∧ FormatInt10 (-12) = "-12".
Proof. repeat split; reflexivity. Qed.

(** Scenario 1: a report of [temperature] for the cached [dev-1] is merged
    into the first [temperature] twin, stored, and patched once, for the
    namespace and name of [dev-1]. *)
Example scenario_known_device :
  ∃ w' body,
    processMessage sampleCollaborators (sampleMessage "dev-1") sampleWorld
    = Some w'
    ∧ (v1alpha1.Reported <$>
         (cachedDevice w' "dev-1"
            ≫= λ d, v1alpha1.Twins (v1alpha1.Status d) !! 0))
      = Some {| v1alpha1.Value := "42";
                v1alpha1.Metadata :=
                  Some {[ "timestamp" := "1000"; "type" := "int" ]} |}
    ∧ patchRequests (trace w')
      = [{| patchType := MergePatchType;
            patchNamespace := "default";
            patchResource := ResourceTypeDevices;
            patchName := "dev-1";
            patchBody := body |}].
Proof. eexists _, _. split; [reflexivity|]. split; reflexivity. Qed.

(** Scenario 2: the same message for a device the cache does not hold: no
    patch request, one warning. *)
Example scenario_unknown_device :
  ∃ w',
    processMessage sampleCollaborators (sampleMessage "dev-2") sampleWorld
    = Some w'
    ∧ patchRequests (trace w') = []
    ∧ trace w'
      = [EvLog Info "Message, operation and resource";
         EvLog Warning "Device does not exist in downstream controller"].
Proof. eexists. repeat split. Qed.

(** ** Further properties of the worker: the failure branches *)

Lemma patchRequests_app l1 l2 :
  patchRequests (l1 ++ l2) = patchRequests l1 ++ patchRequests l2.
Proof. unfold patchRequests. apply omap_app. Qed.

Lemma unmarshal_no_error {V} (uc : Collaborators V) msg :
  (unmarshalDeviceStatusMessage uc msg).2 = None →
  ∃ u, unmarshalDeviceStatusMessage uc msg = (Some u, None).
Proof.
  intros Hnone. destruct (unmarshal_result uc msg) as [[e He]|[u Hu]].
  - by rewrite He in Hnone.
  - by exists u.
Qed.

(** X1.  A message whose content does not decode (lines 114-118) is
    dropped after a warning: the cache and the cached devices are as they
    were, nothing is stored or patched, the resource locator is not even
    looked at, and the worker loop goes on with the next message. *)
Theorem decode_failure_abandons {V} (uc : Collaborators V) (msg : Message V)
    (w : World) (e : error) :
  (unmarshalDeviceStatusMessage uc msg).2 = Some e →
  ∃ w',
    processMessage uc msg w = Some w'
    ∧ deviceCache w' = deviceCache w
    ∧ heap w' = heap w
    ∧ trace w' = trace w
                 ++ [EvLog Info "Message, operation and resource";
                     EvLog Warning "Unmarshall failed"]
    ∧ ∀ rest, updateDeviceStatus uc (Dequeued msg :: rest) w
              = updateDeviceStatus uc rest w'.
Proof.
  intros Herr.
  destruct (unmarshalDeviceStatusMessage uc msg) as [u err] eqn:Hdecode.
  simpl in Herr. subst err.
  assert (processMessage uc msg w
          = Some (klog Warning "Unmarshall failed"
                    (klog Info "Message, operation and resource" w))) as Hrun.
  { unfold processMessage. rewrite Hdecode. by destruct u. }
  eexists. split; [exact Hrun|]. repeat split.
  - simpl. by rewrite <- app_assoc.
  - intros rest. simpl. by rewrite Hrun.
Qed.

Lemma decode_failure_abandons_witness :
  ∃ w',
    processMessage undecodable (sampleMessage "dev-1") sampleWorld = Some w'
    ∧ deviceCache w' = deviceCache sampleWorld
    ∧ heap w' = heap sampleWorld
    ∧ trace w' = trace sampleWorld
                 ++ [EvLog Info "Message, operation and resource";
                     EvLog Warning "Unmarshall failed"]
    ∧ ∀ rest, updateDeviceStatus undecodable
                (Dequeued (sampleMessage "dev-1") :: rest) sampleWorld
              = updateDeviceStatus undecodable rest w'.
Proof.
  apply (decode_failure_abandons undecodable (sampleMessage "dev-1")
           sampleWorld "unexpected end of JSON input").
  reflexivity.
Defined.

(** X2.  A decoded message whose resource locator yields no device
    identifier (lines 119-123) is dropped after a warning: cache and cached
    devices unchanged, nothing stored or patched, and the loop goes on. *)
Theorem unresolved_device_abandons {V} (uc : Collaborators V)
    (msg : Message V) (w : World) (e : error) :
  (unmarshalDeviceStatusMessage uc msg).2 = None →
  (GetDeviceID uc (GetResource msg)).2 = Some e →
  ∃ w',
    processMessage uc msg w = Some w'
    ∧ deviceCache w' = deviceCache w
    ∧ heap w' = heap w
    ∧ trace w' = trace w
                 ++ [EvLog Info "Message, operation and resource";
                     EvLog Warning "Failed to get device id"]
    ∧ ∀ rest, updateDeviceStatus uc (Dequeued msg :: rest) w
              = updateDeviceStatus uc rest w'.
Proof.
  intros [u Hdecode]%unmarshal_no_error Herr.
  destruct (GetDeviceID uc (GetResource msg)) as [deviceID err] eqn:Hid.
  simpl in Herr. subst err.
  assert (processMessage uc msg w
          = Some (klog Warning "Failed to get device id"
                    (klog Info "Message, operation and resource" w))) as Hrun.
  { unfold processMessage. by rewrite Hdecode, Hid. }
  eexists. split; [exact Hrun|]. repeat split.
  - simpl. by rewrite <- app_assoc.
  - intros rest. simpl. by rewrite Hrun.
Qed.

Lemma unresolved_device_abandons_witness :
  ∃ w',
    processMessage unresolvable (sampleMessage "dev-1") sampleWorld = Some w'
    ∧ deviceCache w' = deviceCache sampleWorld
    ∧ heap w' = heap sampleWorld
    ∧ trace w' = trace sampleWorld
                 ++ [EvLog Info "Message, operation and resource";
                     EvLog Warning "Failed to get device id"]
    ∧ ∀ rest, updateDeviceStatus unresolvable
                (Dequeued (sampleMessage "dev-1") :: rest) sampleWorld
              = updateDeviceStatus unresolvable rest w'.
Proof.
  apply (unresolved_device_abandons unresolvable (sampleMessage "dev-1")
           sampleWorld "failed to get device id").
  - reflexivity.
  - reflexivity.
Defined.

(** X3.  When the cache holds, under the message's device identifier, a
    value that is not a device pointer, the type assertion of line 129 fails
    and the message is dropped after a warning (lines 129-133): cache and
    cached devices unchanged, nothing stored or patched, the loop goes on. *)
Theorem foreign_cache_value_abandons {V} (uc : Collaborators V)
    (msg : Message V) (w : World) (deviceID : string) :
  (unmarshalDeviceStatusMessage uc msg).2 = None →
  GetDeviceID uc (GetResource msg) = (deviceID, None) →
  deviceCache w !! deviceID = Some OtherValue →
  ∃ w',
    processMessage uc msg w = Some w'
    ∧ deviceCache w' = deviceCache w
    ∧ heap w' = heap w
    ∧ trace w' = trace w
                 ++ [EvLog Info "Message, operation and resource";
                     EvLog Warning "Failed to assert to CacheDevice type"]
    ∧ ∀ rest, updateDeviceStatus uc (Dequeued msg :: rest) w
              = updateDeviceStatus uc rest w'.
Proof.
  intros [u Hdecode]%unmarshal_no_error Hid Hload.
  assert (processMessage uc msg w
          = Some (klog Warning "Failed to assert to CacheDevice type"
                    (klog Info "Message, operation and resource" w))) as Hrun.
  { unfold processMessage. rewrite Hdecode, Hid. simpl. by rewrite Hload. }
  eexists. split; [exact Hrun|]. repeat split.
  - simpl. by rewrite <- app_assoc.
  - intros rest. simpl. by rewrite Hrun.
Qed.

Lemma foreign_cache_value_abandons_witness :
  ∃ w',
    processMessage sampleCollaborators (sampleMessage "dev-3") mixedWorld
    = Some w'
    ∧ deviceCache w' = deviceCache mixedWorld
    ∧ heap w' = heap mixedWorld
    ∧ trace w' = trace mixedWorld
                 ++ [EvLog Info "Message, operation and resource";
                     EvLog Warning "Failed to assert to CacheDevice type"]
    ∧ ∀ rest, updateDeviceStatus sampleCollaborators
                (Dequeued (sampleMessage "dev-3") :: rest) mixedWorld
              = updateDeviceStatus sampleCollaborators rest w'.
Proof.
  apply (foreign_cache_value_abandons sampleCollaborators
           (sampleMessage "dev-3") mixedWorld "dev-3").
  - reflexivity.
  - reflexivity.
  - reflexivity.
Defined.

(** ** Further properties of the worker: serialization and publication *)

(** X4.  When the merged status cannot be serialized (lines 157-161), the
    merged device is in the cache all the same, no patch request is made,
    and the run ends on the error line. *)
Theorem serialization_failure_keeps_store {V} (uc : Collaborators V)
    (msg : Message V) (w : World) (msgTwin : types.DeviceTwinUpdate)
    (deviceID : string) (p : loc) (cacheDevice : v1alpha1.Device)
    (body : bytes) (e : error) :
  unmarshalDeviceStatusMessage uc msg = (Some msgTwin, None) →
  GetDeviceID uc (GetResource msg) = (deviceID, None) →
  deviceCache w !! deviceID = Some (DevicePtr p) →
  heap w !! p = Some cacheDevice →
  let merged := mergedDevice (visit uc (types.Twin msgTwin)) cacheDevice in
  json_MarshalStatus uc {| Status := v1alpha1.Status merged |} = (body, Some e) →
  ∃ w',
    processMessage uc msg w = Some w'
    ∧ cachedDevice w' deviceID = Some merged
    ∧ patchRequests (trace w') = patchRequests (trace w)
    ∧ trace w' = trace w
                 ++ [EvLog Info "Message, operation and resource";
                     EvStore deviceID p;
                     EvLog Error "Failed to marshal device status"].
Proof.
  intros Hdecode Hid Hload Hheap merged Hmarshal.
  pose proof (processMessage_loaded uc msg w msgTwin deviceID p cacheDevice
                Hdecode Hid Hload Hheap) as Hrun.
  cbv zeta in Hrun. fold merged in Hrun. rewrite Hmarshal in Hrun.
  eexists. split; [exact Hrun|].
  assert (trace (klog Error "Failed to marshal device status"
                   (storedWorld deviceID p merged w))
          = trace w ++ [EvLog Info "Message, operation and resource";
                        EvStore deviceID p;
                        EvLog Error "Failed to marshal device status"])
    as Htrace by (simpl; by rewrite <- app_assoc).
  repeat split.
  - unfold cachedDevice. simpl. by rewrite !lookup_insert_eq.
  - rewrite Htrace, patchRequests_app. simpl. by rewrite app_nil_r.
  - exact Htrace.
Qed.

Lemma serialization_failure_keeps_store_witness :
  ∃ w',
    processMessage unserializable (sampleMessage "dev-1") sampleWorld = Some w'
    ∧ cachedDevice w' "dev-1"
      = Some (mergedDevice (map_to_list sampleUpdate) dev1)
    ∧ patchRequests (trace w') = patchRequests (trace sampleWorld)
    ∧ trace w' = trace sampleWorld
                 ++ [EvLog Info "Message, operation and resource";
                     EvStore "dev-1" 1%positive;
                     EvLog Error "Failed to marshal device status"].
Proof.
  apply (serialization_failure_keeps_store unserializable
           (sampleMessage "dev-1") sampleWorld
           {| types.Twin := sampleUpdate |} "dev-1" 1%positive dev1
           [] "json: unsupported value").
  - reflexivity.
  - reflexivity.
  - reflexivity.
  - reflexivity.
  - reflexivity.
Defined.

(** X5.  When the merged status serializes (lines 157-167), the run makes
    exactly one patch request: a merge patch on the resource [devices], in
    the namespace of the cached device, named by the device identifier,
    whose body is the serialization of the very status the cache now holds
    for the device.  The run ends on the success line when the store
    reports no error and on an error line otherwise. *)
Theorem publish_request_matches_cache {V} (uc : Collaborators V)
    (msg : Message V) (w : World) (msgTwin : types.DeviceTwinUpdate)
    (deviceID : string) (p : loc) (cacheDevice : v1alpha1.Device)
    (body : bytes) :
  unmarshalDeviceStatusMessage uc msg = (Some msgTwin, None) →
  GetDeviceID uc (GetResource msg) = (deviceID, None) →
  deviceCache w !! deviceID = Some (DevicePtr p) →
  heap w !! p = Some cacheDevice →
  let merged := mergedDevice (visit uc (types.Twin msgTwin)) cacheDevice in
  json_MarshalStatus uc {| Status := v1alpha1.Status merged |} = (body, None) →
  let request :=
    {| patchType := "application/merge-patch+json";
       patchNamespace := v1alpha1.Namespace cacheDevice;
       patchResource := "devices";
       patchName := deviceID;
       patchBody := body |} in
  ∃ w' d',
    processMessage uc msg w = Some w'
    ∧ patchRequests (trace w') = patchRequests (trace w) ++ [request]
    ∧ cachedDevice w' deviceID = Some d'
    ∧ json_MarshalStatus uc {| Status := v1alpha1.Status d' |} = (body, None)
    ∧ v1alpha1.Namespace d' = patchNamespace request
    ∧ last (trace w')
      = Some (match Do uc request with
              | None => EvLog Info "Message process successfully"
              | Some _ => EvLog Error "Failed to patch device status"
              end).
Proof.
  intros Hdecode Hid Hload Hheap merged Hmarshal request.
  pose proof (processMessage_loaded uc msg w msgTwin deviceID p cacheDevice
                Hdecode Hid Hload Hheap) as Hrun.
  cbv zeta in Hrun. fold merged in Hrun. rewrite Hmarshal in Hrun.
  change {| patchType := MergePatchType;
            patchNamespace := v1alpha1.Namespace cacheDevice;
            patchResource := ResourceTypeDevices;
            patchName := deviceID;
            patchBody := body |} with request in Hrun.
  assert (∀ s text,
            let w' := klog s text
                        (emit (EvPatch request)
                           (storedWorld deviceID p merged w)) in
            patchRequests (trace w') = patchRequests (trace w) ++ [request]
            ∧ cachedDevice w' deviceID = Some merged
            ∧ last (trace w') = Some (EvLog s text)) as Hshape.
  { intros s text w'. repeat split.
    - simpl. rewrite !patchRequests_app. simpl. by rewrite !app_nil_r.
    - unfold cachedDevice. simpl. by rewrite !lookup_insert_eq.
    - simpl. by rewrite last_snoc. }
  destruct (Do uc request) as [err|].
  - destruct (Hshape Error "Failed to patch device status") as (Hp & Hc & Hl).
    eexists _, merged. split; [exact Hrun|]. by repeat split.
  - destruct (Hshape Info "Message process successfully") as (Hp & Hc & Hl).
    eexists _, merged. split; [exact Hrun|]. by repeat split.
Qed.

Lemma publish_request_matches_cache_witness :
  ∃ w' d',
    processMessage rejecting (sampleMessage "dev-1") sampleWorld = Some w'
    ∧ patchRequests (trace w')
      = patchRequests (trace sampleWorld)
        ++ [{| patchType := "application/merge-patch+json";
               patchNamespace := "default"; patchResource := "devices";
               patchName := "dev-1"; patchBody := [] |}]
    ∧ cachedDevice w' "dev-1" = Some d'
    ∧ json_MarshalStatus rejecting {| Status := v1alpha1.Status d' |}
      = ([], None)
    ∧ v1alpha1.Namespace d' = "default"
    ∧ last (trace w') = Some (EvLog Error "Failed to patch device status").
Proof.
  apply (publish_request_matches_cache rejecting (sampleMessage "dev-1")
           sampleWorld {| types.Twin := sampleUpdate |} "dev-1" 1%positive
           dev1 []).
  - reflexivity.
  - reflexivity.
  - reflexivity.
  - reflexivity.
  - reflexivity.
Defined.

Lemma mergedDevice_unchanged entries d :
  mergeTwins entries (v1alpha1.Twins (v1alpha1.Status d))
  = v1alpha1.Twins (v1alpha1.Status d) →
  mergedDevice entries d = d.
Proof.
  intros Hsame. unfold mergedDevice. rewrite Hsame.
  by destruct d as [? ? []].
Qed.

(** X6.  A message whose update changes nothing in the twin list (an empty
    update, or one that names unknown twins only) is not skipped: the worker
    still stores the device, which leaves cache and cached devices exactly
    as they were, and still sends a patch request carrying the
    serialization of the unchanged status (lines 135-162). *)
Theorem unchanged_status_still_published {V} (uc : Collaborators V)
    (msg : Message V) (w : World) (msgTwin : types.DeviceTwinUpdate)
    (deviceID : string) (p : loc) (cacheDevice : v1alpha1.Device)
    (body : bytes) :
  unmarshalDeviceStatusMessage uc msg = (Some msgTwin, None) →
  GetDeviceID uc (GetResource msg) = (deviceID, None) →
  deviceCache w !! deviceID = Some (DevicePtr p) →
  heap w !! p = Some cacheDevice →
  mergeTwins (visit uc (types.Twin msgTwin))
    (v1alpha1.Twins (v1alpha1.Status cacheDevice))
  = v1alpha1.Twins (v1alpha1.Status cacheDevice) →
  json_MarshalStatus uc {| Status := v1alpha1.Status cacheDevice |}
  = (body, None) →
  ∃ w' s text,
    processMessage uc msg w = Some w'
    ∧ deviceCache w' = deviceCache w
    ∧ heap w' = heap w
    ∧ trace w'
      = trace w
        ++ [EvLog Info "Message, operation and resource";
            EvStore deviceID p;
            EvPatch {| patchType := MergePatchType;
                       patchNamespace := v1alpha1.Namespace cacheDevice;
                       patchResource := ResourceTypeDevices;
                       patchName := deviceID;
                       patchBody := body |};
            EvLog s text].
Proof.
  intros Hdecode Hid Hload Hheap Hsame Hmarshal.
  pose proof (processMessage_loaded uc msg w msgTwin deviceID p cacheDevice
                Hdecode Hid Hload Hheap) as Hrun.
  cbv zeta in Hrun. rewrite (mergedDevice_unchanged _ _ Hsame) in Hrun.
  rewrite Hmarshal in Hrun.
  match type of Hrun with context [Do uc ?r] =>
    destruct (Do uc r) as [err|] end.
  - eexists _, _, _. split; [exact Hrun|]. simpl.
    split; [by apply insert_id|]. split; [by apply insert_id|].
    by rewrite <- !app_assoc.
  - eexists _, _, _. split; [exact Hrun|]. simpl.
    split; [by apply insert_id|]. split; [by apply insert_id|].
    by rewrite <- !app_assoc.
Qed.

Lemma unchanged_status_still_published_witness :
  ∃ w' s text,
    processMessage sampleCollaborators (sampleMessage "dev-4") plantWorld
    = Some w'
    ∧ deviceCache w' = deviceCache plantWorld
    ∧ heap w' = heap plantWorld
    ∧ trace w'
      = trace plantWorld
        ++ [EvLog Info "Message, operation and resource";
            EvStore "dev-4" 4%positive;
            EvPatch {| patchType := MergePatchType;
                       patchNamespace := "plant";
                       patchResource := ResourceTypeDevices;
                       patchName := "dev-4";
                       patchBody := [] |};
            EvLog s text].
Proof.
  apply (unchanged_status_still_published sampleCollaborators
           (sampleMessage "dev-4") plantWorld
           {| types.Twin := sampleUpdate |} "dev-4" 4%positive dev4 []).
  - reflexivity.
  - reflexivity.
  - reflexivity.
  - reflexivity.
  - reflexivity.
  - reflexivity.
Defined.

(** ** Further properties of the worker: what every run keeps *)

(** The cache and the heap after a message that got as far as the load. *)
Lemma processMessage_loaded_state {V} (uc : Collaborators V) msg w
    msgTwin deviceID p cacheDevice :
  unmarshalDeviceStatusMessage uc msg = (Some msgTwin, None) →
  GetDeviceID uc (GetResource msg) = (deviceID, None) →
  deviceCache w !! deviceID = Some (DevicePtr p) →
  heap w !! p = Some cacheDevice →
  ∃ w' after,
    processMessage uc msg w = Some w'
    ∧ deviceCache w' = <[deviceID := DevicePtr p]> (deviceCache w)
    ∧ heap w'
      = <[p := mergedDevice (visit uc (types.Twin msgTwin)) cacheDevice]> (heap w)
    ∧ trace w' = trace w
                 ++ [EvLog Info "Message, operation and resource";
                     EvStore deviceID p] ++ after
    ∧ (after = [EvLog Error "Failed to marshal device status"]
       ∨ ∃ r s text, after = [EvPatch r; EvLog s text] ∧ patchName r = deviceID).
Proof.
  intros Hdecode Hid Hload Hheap.
  rewrite (processMessage_loaded uc msg w msgTwin deviceID p cacheDevice)
    by done.
  cbv zeta. destruct (json_MarshalStatus uc _) as [body [err|]].
  - eexists _, _. do 3 (split; [done|]).
    split; [simpl; by rewrite <- app_assoc|]. by left.
  - match goal with |- context [Do uc ?r] => destruct (Do uc r) as [err|] end.
    + eexists _, _. do 3 (split; [done|]).
      split; [simpl; by rewrite <- !app_assoc|]. right. by eexists _, _, _.
    + eexists _, _. do 3 (split; [done|]).
      split; [simpl; by rewrite <- !app_assoc|]. right. by eexists _, _, _.
Qed.

(** What one message can do to the cache and the heap: nothing, or the
    merge into one cached device. *)
Lemma processMessage_effect {V} (uc : Collaborators V) msg w w' :
  processMessage uc msg w = Some w' →
  deviceCache w' = deviceCache w
  ∧ (heap w' = heap w
     ∨ ∃ p d entries, heap w !! p = Some d
         ∧ heap w' = <[p := mergedDevice entries d]> (heap w)).
Proof.
  intros Hrun.
  destruct (processMessage_cases uc msg w w' Hrun)
    as [(Hcache & Hheap & _)|(u & id & p & d & Hdecode & Hid & Hload & Hp)].
  - split; [done|by left].
  - destruct (processMessage_loaded_state uc msg w u id p d Hdecode Hid Hload Hp)
      as (w'' & after & Hrun' & Hcache & Hheap & _).
    rewrite Hrun in Hrun'. injection Hrun' as <-.
    split; [rewrite Hcache; by apply insert_id|].
    right. by exists p, d, (visit uc (types.Twin u)).
Qed.

Lemma publishDiscipline_logs logs :
  Forall isLog logs → publishDiscipline logs ∧ patchRequests logs = [].
Proof.
  intros Hlogs. split.
  - intros i r Hi. eapply Forall_lookup in Hlogs as (s & text & Heq); [|done].
    discriminate Heq.
  - induction Hlogs as [|e logs (s & text & ->) _ IH]; [done|].
    unfold patchRequests in *. simpl. exact IH.
Qed.

Lemma publishDiscipline_app l1 l2 :
  publishDiscipline l1 → publishDiscipline l2 → publishDiscipline (l1 ++ l2).
Proof.
  intros H1 H2 i r Hi.
  apply lookup_app_Some in Hi as [Hi|[Hge Hi]].
  - destruct (H1 i r Hi) as (j & p & -> & Hj). exists j, p. split; [done|].
    by apply lookup_app_l_Some.
  - destruct (H2 _ r Hi) as (j & p & Heq & Hj).
    exists (length l1 + j), p. split; [lia|].
    rewrite lookup_app_r by lia. by replace (length l1 + j - length l1) with j by lia.
Qed.

(** The events of one message: every patch request directly follows the
    store of its device, and there is at most one. *)
Lemma processMessage_events {V} (uc : Collaborators V) msg w w' :
  processMessage uc msg w = Some w' →
  ∃ new, trace w' = trace w ++ new
    ∧ publishDiscipline new ∧ (length (patchRequests new) ≤ 1)%nat.
Proof.
  intros Hrun.
  destruct (processMessage_cases uc msg w w' Hrun)
    as [(_ & _ & logs & Htrace & Hlogs)|(u & id & p & d & Hdecode & Hid & Hload & Hp)].
  - exists logs. destruct (publishDiscipline_logs logs Hlogs) as [Hdisc ->].
    repeat split; [done..|simpl; lia].
  - destruct (processMessage_loaded_state uc msg w u id p d Hdecode Hid Hload Hp)
      as (w'' & after & Hrun' & _ & _ & Htrace & Hafter).
    rewrite Hrun in Hrun'. injection Hrun' as <-.
    eexists. split; [exact Htrace|].
    destruct Hafter as [->|(r & s & text & -> & Hname)].
    + split; [|simpl; lia].
      intros [|[|[|i]]] r Hi; simpl in Hi; discriminate Hi.
    + split; [|simpl; lia].
      intros [|[|[|[|i]]]] r' Hi; simpl in Hi; try discriminate Hi.
      injection Hi as <-. exists 1, p. by rewrite Hname.
Qed.

(** X7.  Over a whole run of the worker loop, on any sequence of messages:
    every patch request in the trace comes directly after a store into the
    cache under the identifier the request names, and the run makes at most
    one patch request per dequeued message (lines 106-170). *)
Theorem worker_publish_discipline {V} (uc : Collaborators V)
    (selects : list Selected) (w w' : World) :
  updateDeviceStatus uc selects w = Some w' →
  ∃ new, trace w' = trace w ++ new
    ∧ publishDiscipline new
    ∧ (length (patchRequests new) ≤ length (dequeuedMessages selects))%nat.
Proof.
  revert w. induction selects as [|[|msg] rest IH]; intros w Hrun.
  - injection Hrun as <-. exists []. rewrite app_nil_r.
    repeat split; [|simpl; lia]. by intros i r Hi.
  - injection Hrun as <-. exists [EvLog Info "Stop updateDeviceStatus"].
    repeat split; [|simpl; lia].
    intros [|i] r Hi; simpl in Hi; discriminate Hi.
  - simpl in Hrun.
    destruct (processMessage uc msg w) as [w1|] eqn:Hmsg; [|done].
    destruct (processMessage_events uc msg w w1 Hmsg)
      as (new1 & Htrace1 & Hdisc1 & Hcount1).
    destruct (IH w1 Hrun) as (new2 & Htrace2 & Hdisc2 & Hcount2).
    exists (new1 ++ new2). split; [|split].
    + by rewrite Htrace2, Htrace1, app_assoc.
    + by apply publishDiscipline_app.
    + rewrite patchRequests_app, length_app. simpl. lia.
Qed.

Lemma worker_publish_discipline_witness :
  ∃ w' new,
    updateDeviceStatus sampleCollaborators
      [Dequeued (sampleMessage "dev-9"); Dequeued (sampleMessage "dev-1");
       CtxDone; Dequeued (sampleMessage "dev-1")] sampleWorld = Some w'
    ∧ trace w' = trace sampleWorld ++ new
    ∧ publishDiscipline new
    ∧ (length (patchRequests new) ≤ 2)%nat.
Proof.
  destruct (worker_publish_discipline sampleCollaborators
              [Dequeued (sampleMessage "dev-9");
               Dequeued (sampleMessage "dev-1");
               CtxDone; Dequeued (sampleMessage "dev-1")] sampleWorld _ eq_refl)
    as (new & Htrace & Hdisc & Hcount).
  eexists _, new. split; [reflexivity|].
  split; [exact Htrace|]. split; [exact Hdisc|exact Hcount].
Defined.

Lemma sameStructure_refl d : sameStructure d d.
Proof.
  repeat split. apply Forall2_same_length_lookup. split; [done|].
  intros j x y Hx Hy. rewrite Hx in Hy. by injection Hy as <-.
Qed.

Lemma sameStructure_trans d1 d2 d3 :
  sameStructure d1 d2 → sameStructure d2 d3 → sameStructure d1 d3.
Proof.
  intros (Hn1 & Hs1 & Ht1) (Hn2 & Hs2 & Ht2). repeat split; [congruence..|].
  eapply Forall2_trans; [|exact Ht1|exact Ht2].
  intros ???. apply sameButReported_trans.
Qed.

Lemma processMessage_heap_dom {V} (uc : Collaborators V) msg w w' :
  processMessage uc msg w = Some w' → dom (heap w') = dom (heap w).
Proof.
  intros [_ [->|(p & d & entries & Hp & ->)]]%processMessage_effect; [done|].
  rewrite dom_insert_L. apply (elem_of_dom_2 (heap w)) in Hp.
  apply subseteq_union_1_L. by apply singleton_subseteq_l.
Qed.

(** X8.  A run of the worker loop, on any sequence of messages, never adds
    a device to the cache or removes one, never changes which object an
    identifier points to, and leaves every cached device its name, its
    namespace, and the names and desired sides of its twins in their order:
    all it ever changes is [Reported] fields (lines 106-170). *)
Theorem worker_preserves_cache_shape {V} (uc : Collaborators V)
    (selects : list Selected) (w w' : World) :
  updateDeviceStatus uc selects w = Some w' →
  deviceCache w' = deviceCache w
  ∧ dom (heap w') = dom (heap w)
  ∧ ∀ deviceID,
      match cachedDevice w deviceID with
      | Some d => ∃ d', cachedDevice w' deviceID = Some d' ∧ sameStructure d d'
      | None => cachedDevice w' deviceID = None
      end.
Proof.
  revert w. induction selects as [|[|msg] rest IH]; intros w Hrun.
  - injection Hrun as <-. repeat split. intros deviceID.
    destruct (cachedDevice w deviceID) as [d|]; [|done].
    exists d. split; [done|apply sameStructure_refl].
  - injection Hrun as <-. repeat split. intros deviceID.
    change (cachedDevice (klog Info "Stop updateDeviceStatus" w) deviceID)
      with (cachedDevice w deviceID).
    destruct (cachedDevice w deviceID) as [d|]; [|done].
    exists d. split; [done|apply sameStructure_refl].
  - simpl in Hrun.
    destruct (processMessage uc msg w) as [w1|] eqn:Hmsg; [|done].
    destruct (IH w1 Hrun) as (Hcache & Hdom & Hdevices).
    pose proof (processMessage_effect uc msg w w1 Hmsg) as [Hcache1 _].
    split; [congruence|]. split.
    { rewrite Hdom. by eapply processMessage_heap_dom. }
    intros deviceID.
    pose proof (processMessage_frame uc msg w w1 Hmsg deviceID) as Hstep.
    specialize (Hdevices deviceID).
    destruct (cachedDevice w deviceID) as [d|].
    + destruct Hstep as (d1 & Hd1 & Hsame1). rewrite Hd1 in Hdevices.
      destruct Hdevices as (d' & Hd' & Hsame'). exists d'.
      split; [done|]. by eapply sameStructure_trans.
    + by rewrite Hstep in Hdevices.
Qed.

Lemma worker_preserves_cache_shape_witness :
  ∃ w',
    updateDeviceStatus sampleCollaborators
      [Dequeued (sampleMessage "dev-1"); Dequeued (sampleMessage "dev-2")]
      sampleWorld = Some w'
    ∧ deviceCache w' = deviceCache sampleWorld
    ∧ dom (heap w') = dom (heap sampleWorld)
    ∧ ∀ deviceID,
        match cachedDevice sampleWorld deviceID with
        | Some d =>
            ∃ d', cachedDevice w' deviceID = Some d' ∧ sameStructure d d'
        | None => cachedDevice w' deviceID = None
        end.
Proof.
  eexists. split; [reflexivity|].
  apply (worker_preserves_cache_shape sampleCollaborators
           [Dequeued (sampleMessage "dev-1"); Dequeued (sampleMessage "dev-2")]
           sampleWorld).
  reflexivity.
Defined.

Lemma wellFormed_step {V} (uc : Collaborators V) msg w :
  wellFormed w →
  ∃ w', processMessage uc msg w = Some w' ∧ wellFormed w'.
Proof.
  intros Hwf.
  assert (∃ w', processMessage uc msg w = Some w') as [w' Hrun].
  { destruct (unmarshal_result uc msg) as [[e He]|[u Hu]].
    { unfold processMessage. rewrite He. eauto. }
    destruct (GetDeviceID uc (GetResource msg)) as [deviceID [e|]] eqn:Hid.
    { unfold processMessage. rewrite Hu, Hid. eauto. }
    destruct (deviceCache w !! deviceID) as [[p|]|] eqn:Hload.
    - destruct (Hwf deviceID p Hload) as [d Hp].
      destruct (processMessage_loaded_state uc msg w u deviceID p d)
        as (w' & _ & Hrun & _); eauto.
    - unfold processMessage. rewrite Hu, Hid. simpl. rewrite Hload. eauto.
    - unfold processMessage. rewrite Hu, Hid. simpl. rewrite Hload. eauto. }
  exists w'. split; [done|].
  destruct (processMessage_effect uc msg w w' Hrun)
    as [Hcache [Hheap|(p & d & entries & Hp & Hheap)]];
    intros deviceID q Hq; rewrite Hcache in Hq; rewrite Hheap.
  - by apply Hwf in Hq.
  - apply lookup_insert_is_Some. destruct (decide (p = q)); [by left|right].
    split; [done|]. by apply Hwf in Hq.
Qed.

(** X9.  The nil dereferences of lines 134 and 135 and the cache.  On a
    cache all of whose device pointers point to devices, the worker loop
    runs every message to its end, whatever the collaborators return: it
    never dereferences a nil device (line 134) or a nil update (line 135),
    and it leaves such a cache behind.  The condition is needed: a message
    that decodes and resolves to an identifier under which the cache holds
    a nil device pointer makes the worker panic on line 134.  (An entry of
    the decoded twin map is a record here, as in the data model; a nil
    entry is not among the updates considered.) *)
Theorem worker_panics_only_on_nil_device {V} (uc : Collaborators V)
    (selects : list Selected) (w : World) :
  (wellFormed w →
   ∃ w', updateDeviceStatus uc selects w = Some w' ∧ wellFormed w')
  ∧ (∀ msg msgTwin deviceID p rest,
       unmarshalDeviceStatusMessage uc msg = (Some msgTwin, None) →
       GetDeviceID uc (GetResource msg) = (deviceID, None) →
       deviceCache w !! deviceID = Some (DevicePtr p) →
       heap w !! p = None →
       processMessage uc msg w = None
       ∧ updateDeviceStatus uc (Dequeued msg :: rest) w = None).
Proof.
  split.
  - revert w. induction selects as [|[|msg] rest IH]; intros w Hwf.
    + by exists w.
    + eexists. split; [done|]. exact Hwf.
    + destruct (wellFormed_step uc msg w Hwf) as (w1 & Hmsg & Hwf1).
      destruct (IH w1 Hwf1) as (w' & Hrun & Hwf').
      exists w'. split; [|done]. simpl. by rewrite Hmsg.
  - intros msg msgTwin deviceID p rest Hdecode Hid Hload Hnil.
    assert (processMessage uc msg w = None) as Hpanic.
    { unfold processMessage. rewrite Hdecode, Hid. simpl.
      by rewrite Hload, Hnil. }
    split; [done|]. simpl. by rewrite Hpanic.
Qed.

Lemma sampleWorld_wellFormed : wellFormed sampleWorld.
Proof.
  intros deviceID p Hp. unfold sampleWorld in *. simpl in *.
  apply lookup_singleton_Some in Hp as [_ [= <-]].
  by rewrite lookup_singleton_eq.
Defined.

(** On the sample world the run below loads [dev-1] twice, merges, stores
    and publishes; on [danglingWorld] the same message panics. *)
Lemma worker_panics_only_on_nil_device_witness :
  (∃ w',
     updateDeviceStatus sampleCollaborators
       [Dequeued (sampleMessage "dev-1"); Dequeued (sampleMessage "dev-2");
        Dequeued (sampleMessage "dev-1")] sampleWorld = Some w'
     ∧ wellFormed w'
     ∧ length (patchRequests (trace w')) = 2)
  ∧ processMessage sampleCollaborators (sampleMessage "dev-1") danglingWorld
    = None.
Proof.
  split.
  - destruct (worker_panics_only_on_nil_device sampleCollaborators
                [Dequeued (sampleMessage "dev-1");
                 Dequeued (sampleMessage "dev-2");
                 Dequeued (sampleMessage "dev-1")] sampleWorld)
      as [Hruns _].
    destruct (Hruns sampleWorld_wellFormed) as (w' & Hrun & Hwf).
    exists w'. split; [exact Hrun|]. split; [exact Hwf|].
    vm_compute in Hrun. injection Hrun as <-. reflexivity.
  - destruct (worker_panics_only_on_nil_device sampleCollaborators []
                danglingWorld) as [_ Hpanics].
    apply (Hpanics (sampleMessage "dev-1") {| types.Twin := sampleUpdate |}
             "dev-1" 7%positive []); reflexivity.
Defined.

(** X10.  Once the worker loop meets the cancellation signal it stops
    (lines 108-111): what it leaves behind does not depend on anything that
    is queued after that point, no message queued after it is dequeued, and
    the last line the run logs is the stop line. *)
Theorem worker_stops_at_cancellation {V} (uc : Collaborators V)
    (before after : list Selected) (w : World) :
  updateDeviceStatus uc (before ++ CtxDone :: after) w
  = updateDeviceStatus uc (before ++ [CtxDone]) w
  ∧ dequeuedMessages (before ++ CtxDone :: after) = dequeuedMessages before
  ∧ ∀ w', updateDeviceStatus uc (before ++ CtxDone :: after) w = Some w' →
      last (trace w') = Some (EvLog Info "Stop updateDeviceStatus").
Proof.
  revert w. induction before as [|[|msg] rest IH]; intros w.
  - repeat split. intros w' [= <-]. simpl. by rewrite last_snoc.
  - repeat split. intros w' [= <-]. simpl. by rewrite last_snoc.
  - simpl. destruct (processMessage uc msg w) as [w1|].
    + destruct (IH w1) as (Heq & -> & Hlast). by repeat split.
    + destruct (IH w) as (_ & -> & _). by repeat split.
Qed.

(** The cache and the heap a message leaves behind depend on the cache and
    the heap it finds, not on the trace so far. *)
Lemma processMessage_same_state {V} (uc : Collaborators V) msg w w0 w' :
  deviceCache w0 = deviceCache w → heap w0 = heap w →
  processMessage uc msg w = Some w' →
  ∃ w0', processMessage uc msg w0 = Some w0'
    ∧ deviceCache w0' = deviceCache w' ∧ heap w0' = heap w'.
Proof.
  intros Hcache Hheap Hrun.
  destruct (unmarshal_result uc msg) as [[e He]|[u Hu]].
  { unfold processMessage in *. rewrite He in *. injection Hrun as <-. eauto. }
  destruct (GetDeviceID uc (GetResource msg)) as [deviceID [e|]] eqn:Hid.
  { unfold processMessage in *. rewrite Hu, Hid in *. injection Hrun as <-.
    eauto. }
  destruct (deviceCache w !! deviceID) as [[p|]|] eqn:Hload.
  - destruct (heap w !! p) as [d|] eqn:Hp.
    + destruct (processMessage_loaded_state uc msg w u deviceID p d)
        as (w1 & _ & Hrun1 & Hc1 & Hh1 & _); [done..|].
      destruct (processMessage_loaded_state uc msg w0 u deviceID p d)
        as (w2 & _ & Hrun2 & Hc2 & Hh2 & _); [done|done|congruence..|].
      rewrite Hrun in Hrun1. injection Hrun1 as <-.
      exists w2. split; [done|]. split; congruence.
    + unfold processMessage in Hrun. rewrite Hu, Hid in Hrun. simpl in Hrun.
      by rewrite Hload, Hp in Hrun.
  - unfold processMessage in *. rewrite Hu, Hid in *. simpl in *.
    rewrite Hcache. rewrite Hload in *. injection Hrun as <-. eauto.
  - unfold processMessage in *. rewrite Hu, Hid in *. simpl in *.
    rewrite Hcache. rewrite Hload in *. injection Hrun as <-. eauto.
Qed.

Lemma mergedDevice_idempotent U entries d :
  rangeOrder U entries →
  mergedDevice entries (mergedDevice entries d) = mergedDevice entries d.
Proof.
  intros Horder. unfold mergedDevice. simpl. do 2 f_equal.
  rewrite !(mergeTwins_rangeOrder U) by done.
  apply firstMatchMerge_idempotent.
Qed.

(** X11.  Delivering a message a second time does no harm to the cache:
    when the [range] statement visits every entry of a map once, processing
    a message again right after it was processed leaves the cache and every
    cached device exactly as the first processing left them (the merge of
    lines 135-151 into an already merged device changes nothing). *)
Theorem redelivery_keeps_cache {V} (uc : Collaborators V) (msg : Message V)
    (w w1 : World) :
  (∀ U, rangeOrder U (visit uc U)) →
  processMessage uc msg w = Some w1 →
  ∃ w2, processMessage uc msg w1 = Some w2
    ∧ deviceCache w2 = deviceCache w1 ∧ heap w2 = heap w1.
Proof.
  intros Hvisit Hrun.
  destruct (processMessage_cases uc msg w w1 Hrun)
    as [(Hcache & Hheap & _)|(u & id & p & d & Hdecode & Hid & Hload & Hp)].
  - destruct (processMessage_same_state uc msg w w1 w1 Hcache Hheap Hrun)
      as (w2 & Hrun2 & Hc2 & Hh2). by exists w2.
  - destruct (processMessage_loaded_state uc msg w u id p d Hdecode Hid Hload Hp)
      as (w1' & _ & Hrun1 & Hc1 & Hh1 & _).
    rewrite Hrun in Hrun1. injection Hrun1 as <-.
    destruct (processMessage_loaded_state uc msg w1 u id p
                (mergedDevice (visit uc (types.Twin u)) d))
      as (w2 & _ & Hrun2 & Hc2 & Hh2 & _); [done|done|..].
    { by rewrite Hc1, lookup_insert_eq. }
    { by rewrite Hh1, lookup_insert_eq. }
    exists w2. split; [done|]. split.
    + rewrite Hc2, Hc1. by rewrite insert_insert_eq.
    + rewrite Hh2, Hh1, insert_insert_eq.
      by rewrite (mergedDevice_idempotent (types.Twin u)).
Qed.

Lemma redelivery_keeps_cache_witness :
  ∃ w1 w2,
    processMessage sampleCollaborators (sampleMessage "dev-1") sampleWorld
    = Some w1
    ∧ processMessage sampleCollaborators (sampleMessage "dev-1") w1 = Some w2
    ∧ deviceCache w2 = deviceCache w1 ∧ heap w2 = heap w1.
Proof.
  eexists.
  destruct (redelivery_keeps_cache sampleCollaborators
              (sampleMessage "dev-1") sampleWorld _
              (λ U, reflexivity (map_to_list U)) eq_refl)
    as (w2 & Hrun2 & Hcache & Hheap).
  exists w2. split; [reflexivity|]. split; [exact Hrun2|]. by split.
Defined.

(** ** Further properties of the merge: updates in a row *)

Lemma laterWins_reported U1 U2 k :
  laterWins U1 U2 !! k ≫= reportedOf
  = match U2 !! k ≫= reportedOf with
    | Some r => Some r
    | None => U1 !! k ≫= reportedOf
    end.
Proof.
  unfold laterWins.
  destruct (U2 !! k) as [twin|] eqn:H2; simpl.
  - destruct (reportedOf twin) as [r|] eqn:Hr.
    + erewrite lookup_union_Some_l; [simpl; by rewrite Hr|].
      apply map_lookup_filter_Some. split; [done|]. simpl. by rewrite Hr.
    + rewrite lookup_union_r; [done|].
      apply map_lookup_filter_None. right. intros twin' H2'. simpl.
      rewrite H2 in H2'. injection H2' as <-. rewrite Hr. by intros [? ?].
  - rewrite lookup_union_r; [done|].
    apply map_lookup_filter_None. by left.
Qed.

(** The entry-by-entry merge reads the update through the properties its
    entries report, and nothing else. *)
Lemma firstMatchMerge_ext U U' seen twins :
  (∀ k, U !! k ≫= reportedOf = U' !! k ≫= reportedOf) →
  firstMatchMerge U seen twins = firstMatchMerge U' seen twins.
Proof.
  intros Hext. revert seen. induction twins as [|t rest IH]; intros seen; [done|].
  simpl. rewrite IH. f_equal. unfold mergedTwin. by rewrite Hext.
Qed.

Lemma firstMatchMerge_twice U1 U2 seen twins :
  firstMatchMerge U2 seen (firstMatchMerge U1 seen twins)
  = firstMatchMerge (laterWins U1 U2) seen twins.
Proof.
  revert seen. induction twins as [|t rest IH]; intros seen; [done|].
  simpl. rewrite mergedTwin_name, IH. f_equal.
  assert (∀ U t', v1alpha1.PropertyName t' = v1alpha1.PropertyName t →
            mergedTwin U seen t' =
            if decide (v1alpha1.PropertyName t ∈ seen) then t'
            else match U !! v1alpha1.PropertyName t ≫= reportedOf with
                 | Some r => setReported r t'
                 | None => t'
                 end) as Hunfold.
  { intros U t' Hname. unfold mergedTwin. by rewrite Hname. }
  rewrite (Hunfold U2 (mergedTwin U1 seen t)) by apply mergedTwin_name.
  rewrite (Hunfold U1 t), (Hunfold (laterWins U1 U2) t) by done.
  rewrite laterWins_reported.
  case_decide; [done|].
  destruct (U2 !! v1alpha1.PropertyName t ≫= reportedOf) as [r2|]; [|done].
  by destruct (U1 !! v1alpha1.PropertyName t ≫= reportedOf).
Qed.

(** X12.  Two updates merged one after the other amount to one update: the
    earlier one in which every entry of the later one that carries a value
    has taken the place of the entry for its name.  So a later value
    overwrites an earlier one, a later null leaves the earlier value in
    place, and names reported only once keep their report (lines
    135-151). *)
Theorem merge_sequence_later_wins (U1 U2 : gmap string types.MsgTwin)
    (entries1 entries2 entries12 : list (string * types.MsgTwin))
    (twins : list v1alpha1.Twin) :
  rangeOrder U1 entries1 → rangeOrder U2 entries2 →
  rangeOrder (laterWins U1 U2) entries12 →
  mergeTwins entries2 (mergeTwins entries1 twins) = mergeTwins entries12 twins.
Proof.
  intros H1 H2 H12.
  rewrite (mergeTwins_rangeOrder U2 entries2) by done.
  rewrite (mergeTwins_rangeOrder U1 entries1) by done.
  rewrite (mergeTwins_rangeOrder (laterWins U1 U2) entries12) by done.
  apply firstMatchMerge_twice.
Qed.

Lemma merge_sequence_later_wins_witness :
  mergeTwins (map_to_list laterUpdate)
    (mergeTwins (map_to_list twoReports) sampleTwins)
  = mergeTwins (map_to_list (laterWins twoReports laterUpdate)) sampleTwins.
Proof.
  apply (merge_sequence_later_wins twoReports laterUpdate).
  - unfold rangeOrder. reflexivity.
  - unfold rangeOrder. reflexivity.
  - unfold rangeOrder. reflexivity.
Defined.

(** X13.  Updates that name different twins do not interfere: merged in
    either order they give the same twin list (lines 135-151). *)
Theorem merge_disjoint_updates_commute (U1 U2 : gmap string types.MsgTwin)
    (entries1 entries2 : list (string * types.MsgTwin))
    (twins : list v1alpha1.Twin) :
  rangeOrder U1 entries1 → rangeOrder U2 entries2 →
  dom U1 ## dom U2 →
  mergeTwins entries2 (mergeTwins entries1 twins)
  = mergeTwins entries1 (mergeTwins entries2 twins).
Proof.
  intros H1 H2 Hdisjoint.
  rewrite !(mergeTwins_rangeOrder U2 entries2) by done.
  rewrite !(mergeTwins_rangeOrder U1 entries1) by done.
  rewrite !firstMatchMerge_twice.
  apply firstMatchMerge_ext. intros k. rewrite !laterWins_reported.
  destruct (U1 !! k) as [twin1|] eqn:Hk1, (U2 !! k) as [twin2|] eqn:Hk2;
    simpl; try done.
  - exfalso. apply (Hdisjoint k); apply elem_of_dom; eauto.
  - by destruct (reportedOf twin1).
  - by destruct (reportedOf twin2).
Qed.

Lemma merge_disjoint_updates_commute_witness :
  mergeTwins (map_to_list humidityUpdate)
    (mergeTwins (map_to_list sampleUpdate) sampleTwins)
  = mergeTwins (map_to_list sampleUpdate)
      (mergeTwins (map_to_list humidityUpdate) sampleTwins).
Proof.
  apply (merge_disjoint_updates_commute sampleUpdate humidityUpdate).
  - unfold rangeOrder. reflexivity.
  - unfold rangeOrder. reflexivity.
  - unfold sampleUpdate, humidityUpdate. rewrite !dom_singleton_L.
    apply disjoint_singleton_l. rewrite elem_of_singleton. discriminate.
Defined.

(** X14.  A later update that covers every name of an earlier one and
    carries a value for each of its entries supersedes it: the twin list
    after both merges is the one the later update alone would give (lines
    135-151). *)
Theorem merge_full_report_supersedes (U1 U2 : gmap string types.MsgTwin)
    (entries1 entries2 : list (string * types.MsgTwin))
    (twins : list v1alpha1.Twin) :
  rangeOrder U1 entries1 → rangeOrder U2 entries2 →
  dom U1 ⊆ dom U2 →
  (∀ twinName twin, U2 !! twinName = Some twin → hasActualValue twin) →
  mergeTwins entries2 (mergeTwins entries1 twins) = mergeTwins entries2 twins.
Proof.
  intros H1 H2 Hcovers Hvalues.
  rewrite !(mergeTwins_rangeOrder U2 entries2) by done.
  rewrite (mergeTwins_rangeOrder U1 entries1) by done.
  rewrite firstMatchMerge_twice.
  apply firstMatchMerge_ext. intros k. rewrite laterWins_reported.
  destruct (U2 !! k) as [twin2|] eqn:Hk2; simpl.
  - apply Hvalues, reportedOf_hasActualValue in Hk2 as [r ->]. done.
  - destruct (U1 !! k) as [twin1|] eqn:Hk1; [|done].
    exfalso. apply (not_elem_of_dom_2 U2) in Hk2. apply Hk2, Hcovers.
    apply elem_of_dom. eauto.
Qed.

Lemma merge_full_report_supersedes_witness :
  mergeTwins (map_to_list twoReports)
    (mergeTwins (map_to_list sampleUpdate) sampleTwins)
  = mergeTwins (map_to_list twoReports) sampleTwins.
Proof.
  apply (merge_full_report_supersedes sampleUpdate twoReports).
  - unfold rangeOrder. reflexivity.
  - unfold rangeOrder. reflexivity.
  - unfold sampleUpdate, twoReports.
    rewrite dom_insert_L, !dom_singleton_L. apply union_subseteq_l.
  - intros twinName twin Hlookup. unfold twoReports in Hlookup.
    apply lookup_insert_Some in Hlookup as [[_ <-]|[_ Hlookup]].
    + by eexists _, _.
    + apply lookup_singleton_Some in Hlookup as [_ <-]. by eexists _, _.
Defined.

(** X15.  What the two loops compute, with no condition on the update or
    on the twin list: the result has the length of the cached list, and at
    every position it holds the cached twin itself, unless that twin is the
    first of its name and the update has an entry for the name with a
    non-nil actual value, in which case it holds a twin with the same name
    and desired side whose [Reported] field is the property built from the
    entry (lines 135-151). *)
Theorem merge_entry_by_entry (U : gmap string types.MsgTwin)
    (entries : list (string * types.MsgTwin)) (twins : list v1alpha1.Twin) :
  rangeOrder U entries →
  length (mergeTwins entries twins) = length twins
  ∧ ∀ i t, twins !! i = Some t →
      mergeTwins entries twins !! i
      = Some (if decide (v1alpha1.PropertyName t ∈ names (take i twins))
              then t
              else match U !! v1alpha1.PropertyName t with
                   | Some twin =>
                       match types.Actual twin with
                       | Some actual =>
                           match types.Value actual with
                           | Some value =>
                               {| v1alpha1.PropertyName :=
                                    v1alpha1.PropertyName t;
                                  v1alpha1.Desired := v1alpha1.Desired t;
                                  v1alpha1.Reported :=
                                    {| v1alpha1.Value := value;
                                       v1alpha1.Metadata :=
                                         v1alpha1.Metadata
                                           (newReported twin actual value) |} |}
                           | None => t
                           end
                       | None => t
                       end
                   | None => t
                   end).
Proof.
  intros Horder. split.
  - rewrite (mergeTwins_rangeOrder U) by done. apply firstMatchMerge_length.
  - intros i t Hi. rewrite (mergeTwins_lookup U) by done. rewrite Hi. simpl.
    f_equal. unfold mergedTwin. case_decide; [done|].
    destruct (U !! v1alpha1.PropertyName t) as [twin|]; [|done]. simpl.
    unfold reportedOf. destruct (types.Actual twin) as [actual|]; [|done].
    by destruct (types.Value actual).
Qed.

Lemma merge_entry_by_entry_witness :
  length (mergeTwins (reverse (map_to_list laterUpdate)) sampleTwins)
  = length sampleTwins
  ∧ ∀ i t, sampleTwins !! i = Some t →
      mergeTwins (reverse (map_to_list laterUpdate)) sampleTwins !! i
      = Some (if decide (v1alpha1.PropertyName t ∈ names (take i sampleTwins))
              then t
              else match laterUpdate !! v1alpha1.PropertyName t with
                   | Some twin =>
                       match types.Actual twin with
                       | Some actual =>
                           match types.Value actual with
                           | Some value =>
                               {| v1alpha1.PropertyName :=
                                    v1alpha1.PropertyName t;
                                  v1alpha1.Desired := v1alpha1.Desired t;
                                  v1alpha1.Reported :=
                                    {| v1alpha1.Value := value;
                                       v1alpha1.Metadata :=
                                         v1alpha1.Metadata
                                           (newReported twin actual value) |} |}
                           | None => t
                           end
                       | None => t
                       end
                   | None => t
                   end).
Proof.
  apply (merge_entry_by_entry laterUpdate).
  unfold rangeOrder. apply reverse_Permutation.
Defined.

(** The sample device after the later report: the first [temperature] twin
    reports 43, the [humidity] twin (a null report) and the second
    [temperature] twin keep their stale reports. *)
Example merge_entry_by_entry_sample :
  (λ t, v1alpha1.Value (v1alpha1.Reported t))
    <$> mergeTwins (reverse (map_to_list laterUpdate)) sampleTwins
  = ["43"; "17"; "17"].
Proof. reflexivity. Qed.

(** ** Further properties of the dispatcher *)

Lemma dispatchOne_chan_decide {V} (uc : Collaborators V) received d :
  deviceStatusChan (dispatchOne uc received d)
  = deviceStatusChan d
    ++ (if decide (twinUpdateReceived uc received) then [received.1] else []).
Proof.
  rewrite dispatchOne_chan. f_equal.
  destruct (decide (twinUpdateReceived uc received)) as [[Herr Hrt]|Hno].
  - rewrite Herr, Hrt. by rewrite bool_decide_eq_true_2.
  - destruct received as [msg [e|]]; simpl; [done|].
    destruct (GetResourceType uc (GetResource msg)) as [rt [e|]] eqn:Hrt;
      [done|].
    case_bool_decide; [|done].
    exfalso. apply Hno. split; [done|]. simpl. by subst rt.
Qed.

(** X16.  The worker queue after a run of the dispatch loop holds what it
    held before, followed by the twin-update messages received before the
    cancellation, in the order they were received: the dispatcher neither
    reorders nor duplicates nor loses a twin update, never removes a message
    from the queue, and enqueues nothing it receives after cancellation
    (lines 74-104). *)
Theorem dispatch_queue_in_arrival_order {V} (uc : Collaborators V)
    (polls : list Polled) (d : Dispatcher) :
  deviceStatusChan (dispatchMessage uc polls d)
  = deviceStatusChan d
    ++ (fst <$> filter (twinUpdateReceived uc) (receivedBeforeCancel polls)).
Proof.
  revert d. induction polls as [|[|r] rest IH]; intros d; simpl.
  - by rewrite app_nil_r.
  - by rewrite app_nil_r.
  - rewrite IH, dispatchOne_chan_decide, <- app_assoc. f_equal.
    rewrite filter_cons. by case_decide.
Qed.

Lemma dispatchOne_warnings {V} (uc : Collaborators V) received d :
  warningCount (dlog (dispatchOne uc received d))
  = warningCount (dlog d)
    + (if decide (twinUpdateReceived uc received) then 0 else 1).
Proof.
  assert (∀ events s text,
            warningCount (events ++ [EvLog s text])
            = warningCount events + (if isWarning (EvLog s text) then 1 else 0))
    as Hsnoc.
  { intros events s text. unfold warningCount.
    rewrite List.filter_app, length_app. by destruct s. }
  destruct (decide (twinUpdateReceived uc received)) as [[Herr Hrt]|Hno].
  - destruct received as [msg err]. simpl in Herr, Hrt. subst err.
    simpl. rewrite Hrt. rewrite bool_decide_eq_true_2 by done.
    simpl. rewrite !Hsnoc. simpl. lia.
  - destruct received as [msg [e|]]; simpl; [by rewrite Hsnoc|].
    destruct (GetResourceType uc (GetResource msg)) as [rt [e|]] eqn:Hrt.
    { simpl. rewrite !Hsnoc. simpl. lia. }
    case_bool_decide.
    + exfalso. apply Hno. split; [done|]. simpl. by subst rt.
    + simpl. rewrite !Hsnoc. simpl. lia.
Qed.

(** X17.  The dispatcher drops nothing silently: over a run of the dispatch
    loop it logs exactly one warning for every receive before the
    cancellation that does not end with the message on the worker queue (a
    receive error, a locator that does not parse, another resource type),
    and none for a message it enqueues (lines 82-102). *)
Theorem dispatch_warns_once_per_drop {V} (uc : Collaborators V)
    (polls : list Polled) (d : Dispatcher) :
  warningCount (dlog (dispatchMessage uc polls d))
  = warningCount (dlog d)
    + length (filter (λ r, ¬ twinUpdateReceived uc r)
                (receivedBeforeCancel polls)).
Proof.
  revert d. induction polls as [|[|r] rest IH]; intros d; simpl.
  - lia.
  - unfold warningCount. simpl. rewrite List.filter_app, length_app. simpl. lia.
  - rewrite IH, dispatchOne_warnings, filter_cons.
    destruct (decide (twinUpdateReceived uc r)) as [Hyes|Hno].
    + rewrite decide_False by (by intros ?). lia.
    + rewrite decide_True by done. simpl. lia.
Qed.

(** ** Construction *)

(** X18.  [NewUpstreamController] never returns an error (lines 192-205):
    whatever [utils.KubeConfig], [utils.NewCRDClient] and
    [messagelayer.NewMessageLayer] return, it returns a nil error and a
    controller holding the client, layer and downstream controller it got.
    The errors of the first two calls are overwritten unread, so the result
    and the log are the same as if they had been nil; only an error of the
    message layer leaves a line in the log, a warning. *)
Theorem NewUpstreamController_swallows_errors
    {Config Client Layer Downstream : Type}
    (KubeConfig : result Config) (NewCRDClient : Config → result Client)
    (NewMessageLayer : result Layer) (downstream : Downstream) :
  let out :=
    NewUpstreamController KubeConfig NewCRDClient NewMessageLayer downstream in
  out.1.2 = None
  ∧ crdClient out.1.1 = (NewCRDClient KubeConfig.1).1
  ∧ messageLayer out.1.1 = NewMessageLayer.1
  ∧ dc out.1.1 = downstream
  ∧ out = NewUpstreamController (KubeConfig.1, None)
            (λ config, ((NewCRDClient config).1, None))
            NewMessageLayer downstream
  ∧ out.2 = match NewMessageLayer.2 with
            | Some _ =>
                [EvLog Warning "Create message layer failed with error"]
            | None => []
            end.
Proof.
  unfold NewUpstreamController.
  destruct KubeConfig as [config e1]. simpl.
  destruct (NewCRDClient config) as [crdcli e2].
  destruct NewMessageLayer as [ml [e3|]]; by repeat split.
Qed.
